(** * wickedd: the connection acceptor, the request handler and the
      event-to-policy pipeline of [wickedd.c]

    The daemon is glue code around libwicked: almost every statement is a
    call into the library (logging, request parsing, the XML document
    model, the policy store) or into libc ([fork], [exit], [snprintf]).
    The embedding keeps that shape.  A C function becomes a program
    [prog A]: a tree of library calls whose continuation receives the
    value the call returned.  The library itself is not fixed: programs are
    run against an arbitrary [library], a record of response functions over
    a library state, so a theorem below holds whatever the callees answer
    unless it names an assumption on them.  Only libc has a fixed meaning.
    One thing is assumed throughout: a callee returns (none of the three
    functions calls [ni_fatal]). *)

From Stdlib Require Import ZArith NArith Ascii String List Lia.
From stdpp Require Import base option list strings pretty.

Local Open Scope string_scope.
Local Open Scope Z_scope.

(** ** C data *)

(** Pointers into library-owned memory are opaque machine addresses; the
    daemon only ever tests them against [NULL] and hands them back.
    Integers ([int], [pid_t], [uid_t], [ni_event_t]) take part in no
    arithmetic, only in comparisons, so they are [Z] or, when unsigned,
    [N], with no wrap-around to write out. *)
Definition ptr := Z.
Definition NULL : ptr := 0.

(** [ni_interface_t]: the daemon reads one field, [ifp->name]. *)
Record ni_interface_t := { name : string }.

(** [ni_policy_t]: the daemon reads one field, [policy->action]; the
    address keeps apart two policies that share an action. *)
Record ni_policy_t := { policy_addr : ptr; action : string }.

(** Variadic arguments of the printf-style functions. *)
Inductive fmt_arg :=
| ArgU (u : N)        (* %u *)
| ArgS (s : string).  (* %s *)

Section Calls.

(** [ni_wicked_request_t] is declared in <wicked/wicked.h>; the daemon
    never looks inside it, so its contents stay abstract. *)
Context {ni_wicked_request_t : Type}.

(** The callees, outside the file, of the acceptor, the request handler
    and the event handler.  A function that writes through [&req] takes the
    request by value here and its reply carries the updated request.  The
    logging functions keep their format and arguments apart. *)
Inductive call : Type :=
(* <wicked/logging.h> *)
| ni_error (fmt : string) (args : list fmt_arg)
| ni_debug_wicked (fmt : string) (args : list fmt_arg)
| ni_debug_events (fmt : string) (args : list fmt_arg)
(* <wicked/wicked.h> *)
| ni_wicked_request_init
| ni_wicked_request_parse (sock : ptr) (req : ni_wicked_request_t)
| ni_wicked_call_direct (req : ni_wicked_request_t)
| ni_wicked_response_print (sock : ptr) (req : ni_wicked_request_t) (rv : Z)
| ni_wicked_request_destroy (req : ni_wicked_request_t)
(* <wicked/xml.h> *)
| xml_node_new (ident : string) (parent : ptr)
| xml_node_add_attr (node : ptr) (attr value : string)
| xml_node_replace_child (node child : ptr)
| xml_node_free (node : ptr)
(* <wicked/netinfo.h> *)
| ni_default_xml_syntax
| ni_syntax_xml_from_interface (syntax nih : ptr) (ifp : ni_interface_t)
| ni_default_policies
| ni_policy_match_event (policies evnode : ptr)
| ni_policy_apply (policy : ni_policy_t) (ifnode : ptr)
(* <stdio.h> *)
| snprintf (size : N) (fmt : string) (args : list fmt_arg)
(* <wicked/socket.h>: the socket layer's own call, see [ni_socket_accept] *)
| ni_socket_close (sock : ptr).

(** What each call hands back to the daemon. *)
Definition reply (c : call) : Type :=
  match c with
  | ni_wicked_request_init => ni_wicked_request_t
  | ni_wicked_request_parse _ _ => Z * ni_wicked_request_t
  | ni_wicked_call_direct _ => Z * ni_wicked_request_t
  | xml_node_new _ _ => ptr
  | ni_default_xml_syntax => ptr
  | ni_syntax_xml_from_interface _ _ _ => ptr
  | ni_default_policies => ptr
  | ni_policy_match_event _ _ => option ni_policy_t
  | ni_policy_apply _ _ => Z
  | snprintf _ _ _ => string          (* the buffer after the call *)
  | _ => unit
  end.

(** ** Programs *)

Inductive prog (A : Type) : Type :=
| Ret (a : A)
| Exit (status : Z)                        (* exit(3) *)
| Fork (k : Z -> prog A)                   (* fork(2) *)
| Call (c : call) (k : reply c -> prog A).

Arguments Ret {A} a.
Arguments Exit {A} status.
Arguments Fork {A} k.
Arguments Call {A} c k.

Fixpoint bind {A B} (p : prog A) (f : A -> prog B) : prog B :=
  match p with
  | Ret a => f a
  | Exit s => Exit s
  | Fork k => Fork (fun pid => bind (k pid) f)
  | Call c k => Call c (fun r => bind (k r) f)
  end.

Definition do (c : call) : prog (reply c) := Call c Ret.
Definition fork : prog Z := Fork Ret.

End Calls.

Arguments call : clear implicits.
Arguments prog : clear implicits.
Arguments Ret {_ A} a.
Arguments Exit {_ A} status.
Arguments Fork {_ A} k.
Arguments Call {_ A} c k.

Declare Scope prog_scope.
Delimit Scope prog_scope with prog.
Notation "x <- p ; q" := (bind p (fun x => q))
  (at level 20, p at level 100, q at level 200, only parsing) : prog_scope.
Notation "' pat <- p ; q" := (bind p (fun x => match x with pat => q end))
  (at level 20, pat pattern, p at level 100, q at level 200, only parsing)
  : prog_scope.
Notation "p ;; q" := (bind p (fun _ => q))
  (at level 100, q at level 200, only parsing, right associativity)
  : prog_scope.

(** ** libc *)

(** The first [n] bytes of a string. *)
Fixpoint truncate (n : nat) (s : string) : string :=
  match n, s with
  | S n', String c s' => String c (truncate n' s')
  | _, _ => ""
  end.

(** printf-style expansion, for the two directives the daemon uses.  A C
    string is the Rocq string of its bytes before the terminator. *)
Fixpoint format (fmt : string) (args : list fmt_arg) : string :=
  match fmt with
  | "" => ""
  | String "%" (String "s" rest as tail) =>
      match args with
      | ArgS s :: args' => s ++ format rest args'
      | _ => String "%" (format tail args)
      end
  | String "%" (String "u" rest as tail) =>
      match args with
      | ArgU u :: args' => pretty u ++ format rest args'
      | _ => String "%" (format tail args)
      end
  | String c rest => String c (format rest args)
  end.

(** [snprintf(buf, size, fmt, ...)] leaves in [buf] the expansion cut to
    [size - 1] bytes, then the terminator.  (With [size] 0 it writes
    nothing; the daemon passes 256.) *)
Definition libc_snprintf (size : N) (fmt : string) (args : list fmt_arg)
  : string :=
  truncate (N.to_nat (N.pred size)) (format fmt args).

(** ** Running a program *)

(** A process ends by returning from the function it runs or in
    [exit]. *)
Inductive outcome (A : Type) :=
| Returned (a : A)
| Exited (status : Z).
Arguments Returned {A} a.
Arguments Exited {A} status.

Section Run.

Context {ni_wicked_request_t : Type}.
Local Abbreviation call := (call ni_wicked_request_t).
Local Abbreviation prog := (prog ni_wicked_request_t).

(** The world outside [wickedd.c]: a state [L] (library globals, the
    kernel, the peer on the socket) and, for every call, the value it
    returns and the state it leaves.  [os_fork] is the kernel's decision on
    a [fork]: [None] when it fails, the child's pid otherwise. *)
Record library (L : Type) := {
  respond : forall c : call, L -> reply c * L;
  os_fork : L -> option positive * L
}.
Arguments respond {L} _ c _.
Arguments os_fork {L} _ _.

(** One observable step of a process, with the value handed back. *)
Inductive step :=
| Called (c : call) (r : reply c)
| Forked (pid : Z).

(** A process that ran to completion: how it ended, what it did, the
    state it left. *)
Record process (L A : Type) := {
  proc_outcome : outcome A;
  proc_trace : list step;
  proc_final : L
}.
Arguments proc_outcome {L A} _.
Arguments proc_trace {L A} _.
Arguments proc_final {L A} _.

(** The process that ran the program, and every process forked on the
    way, each with its pid. *)
Record execution (L A : Type) := {
  parent : process L A;
  children : list (positive * process L A)
}.
Arguments parent {L A} _.
Arguments children {L A} _.

Definition after {L A} (e : step) (p : process L A) : process L A :=
  {| proc_outcome := proc_outcome p;
     proc_trace := e :: proc_trace p;
     proc_final := proc_final p |}.

(** libc answers for itself; everything else is the library's. *)
Definition answer {L} (lib : library L) (c : call) (l : L) : reply c * L :=
  match c as c0 return reply c0 * L with
  | snprintf size fmt args => (libc_snprintf size fmt args, l)
  | c0 => respond lib c0 l
  end.

(** [fork] returns twice: the child's pid in the parent and 0 in the
    child, which starts from a copy of the parent's state; or -1 once,
    when it fails. *)
Fixpoint run {L A} (lib : library L) (p : prog A) (l : L) : execution L A :=
  match p with
  | Ret a =>
      {| parent := {| proc_outcome := Returned a; proc_trace := [];
                      proc_final := l |};
         children := [] |}
  | Exit status =>
      {| parent := {| proc_outcome := Exited status; proc_trace := [];
                      proc_final := l |};
         children := [] |}
  | Call c k =>
      let '(r, l') := answer lib c l in
      let e := run lib (k r) l' in
      {| parent := after (Called c r) (parent e); children := children e |}
  | Fork k =>
      match os_fork lib l with
      | (None, l') =>
          let e := run lib (k (-1)) l' in
          {| parent := after (Forked (-1)) (parent e);
             children := children e |}
      | (Some pid, l') =>
          let e := run lib (k (Z.pos pid)) l' in
          let c := run lib (k 0) l' in
          {| parent := after (Forked (Z.pos pid)) (parent e);
             children := (pid, after (Forked 0) (parent c))
                           :: children c ++ children e |}
      end
  end.

End Run.

Arguments library : clear implicits.
Arguments step : clear implicits.
Arguments Called {_} c r.
Arguments Forked {_} pid.
Arguments respond {_ L} _ c _.
Arguments os_fork {_ L} _ _.
Arguments process : clear implicits.
Arguments proc_outcome {_ L A} _.
Arguments proc_trace {_ L A} _.
Arguments proc_final {_ L A} _.
Arguments execution : clear implicits.
Arguments parent {_ L A} _.
Arguments children {_ L A} _.

(** ** <wicked/netinfo.h>: the event enumeration *)

(** The header is not part of the daemon's source file, so the values of
    the enumerators are parameters.  [ni_event_t] is an enumeration with no
    negative enumerator: an unsigned machine integer. *)
Record ni_event_enum := {
  NI_EVENT_LINK_CREATE : N;
  NI_EVENT_LINK_DELETE : N;
  NI_EVENT_LINK_UP : N;
  NI_EVENT_LINK_DOWN : N;
  NI_EVENT_NETWORK_UP : N;
  NI_EVENT_NETWORK_DOWN : N;
  __NI_EVENT_MAX : N
}.

(** The six kinds, in declaration order. *)
Definition event_kinds (E : ni_event_enum) : list N :=
  [NI_EVENT_LINK_CREATE E; NI_EVENT_LINK_DELETE E; NI_EVENT_LINK_UP E;
   NI_EVENT_LINK_DOWN E; NI_EVENT_NETWORK_UP E; NI_EVENT_NETWORK_DOWN E].

(** What C guarantees of such a declaration that ends in the [__..._MAX]
    sentinel: the enumerators are pairwise distinct and below it. *)
Definition enum_ok (E : ni_event_enum) : Prop :=
  NoDup (event_kinds E) /\
  Forall (fun k => (k < __NI_EVENT_MAX E)%N) (event_kinds E).

(** ** wickedd.c *)

Section Daemon.

Context {ni_wicked_request_t : Type}.
Local Abbreviation call := (call ni_wicked_request_t).
Local Abbreviation prog := (prog ni_wicked_request_t).

Variable E : ni_event_enum.

(** [static int opt_nofork], set once by [main] from [--no-fork]. *)
Variable opt_nofork : Z.

Local Open Scope prog_scope.

(** [wicked_process_network_restcall], lines 162-180. *)
Definition wicked_process_network_restcall (sock : ptr) : prog unit :=
  (* Read the request coming in from the socket. *)
  req <- do ni_wicked_request_init;
  '(rv, req) <- do (ni_wicked_request_parse sock req);
  (* Process the call *)
  '(rv, req) <- (if 0 <=? rv then do (ni_wicked_call_direct req)
                 else Ret (rv, req));
  (* ... and send the response back. *)
  do (ni_wicked_response_print sock req rv);;
  do (ni_wicked_request_destroy req).

(** [wicked_accept_connection], lines 132-160.  [gid] is unused, as in the
    source. *)
Definition wicked_accept_connection (sock : ptr) (uid gid : N) : prog Z :=
  if negb (uid =? 0)%N then
    do (ni_error "refusing attempted connection by user %u" [ArgU uid]);;
    Ret (-1)
  else
    do (ni_debug_wicked "accepted connection from uid=%u" [ArgU uid]);;
    if negb (opt_nofork =? 0) then
      wicked_process_network_restcall sock;;
      Ret (-1)
    else
      (* Fork the worker child *)
      pid <- fork;
      if pid <? 0 then
        do (ni_error "unable to fork worker child: %m" []);;
        Ret (-1)
      else if pid =? 0 then
        wicked_process_network_restcall sock;;
        Exit 0
      else
        Ret (-1).

(** The designated initialisers of [evtype], lines 192-197, in source
    order. *)
Definition designated : list (N * string) :=
  [(NI_EVENT_LINK_CREATE E, "link-create");
   (NI_EVENT_LINK_DELETE E, "link-delete");
   (NI_EVENT_LINK_UP E, "link-up");
   (NI_EVENT_LINK_DOWN E, "link-down");
   (NI_EVENT_NETWORK_UP E, "network-up");
   (NI_EVENT_NETWORK_DOWN E, "network-down")].

(** One designated initialiser, [[kind] = s]. *)
Definition set_slot (table : list (option string)) (d : N * string)
  : list (option string) :=
  let '(kind, s) := d in <[N.to_nat kind := Some s]> table.

(** [evtype], lines 191-198: [__NI_EVENT_MAX] slots, [NULL] unless a
    designated initialiser names the slot; a later initialiser of a slot
    replaces an earlier one. *)
Definition evtype : list (option string) :=
  foldl set_slot (replicate (N.to_nat (__NI_EVENT_MAX E)) None) designated.

(** The [out:] label, lines 237-240. *)
Definition out (evnode : ptr) : prog unit :=
  if negb (evnode =? NULL) then do (xml_node_free evnode) else Ret tt.

(** [wicked_interface_event], lines 188-241. *)
Definition wicked_interface_event (nih : ptr) (ifp : ni_interface_t)
    (event : N) : prog unit :=
  if (__NI_EVENT_MAX E <=? event)%N then Ret tt else
  match evtype !! N.to_nat event with
  | Some (Some kind) =>
      do (ni_debug_events "%s: %s event" [ArgS (name ifp); ArgS kind]);;
      evnode <- do (xml_node_new "event" NULL);
      do (xml_node_add_attr evnode "type" kind);;
      syntax <- do ni_default_xml_syntax;
      ifnode <- do (ni_syntax_xml_from_interface syntax nih ifp);
      if ifnode =? NULL then out evnode else
      do (xml_node_replace_child evnode ifnode);;
      policies <- do ni_default_policies;
      policy <- do (ni_policy_match_event policies evnode);
      match policy with
      | None => out evnode
      | Some policy =>
          do (ni_debug_events "matched a policy (action=%s)"
                              [ArgS (action policy)]);;
          rv <- do (ni_policy_apply policy ifnode);
          if rv <? 0 then out evnode else
          (* Finally, invoke REST function *)
          restpath <- do (snprintf 256 "/system/interface/%s"
                                   [ArgS (name ifp)]);
          (* wicked_rest_call(policy->action, restpath, ifnode); *)
          out evnode
      end
  | _ => Ret tt
  end.

(** ** The socket layer around the two callbacks *)

(** What the wait loop of [main] (lines 120-123) finds ready: a
    connection on the listening socket with its peer credentials, or a
    kernel event. *)
Inductive ready :=
| Incoming (sock : ptr) (uid gid : N)
| Kernel (nih : ptr) (ifp : ni_interface_t) (event : N).

(** Modelled from the spec: the accept path of libwicked's socket layer,
    which is not in [wickedd.c].  Section 4.1: "the acceptor's return value
    instructs the socket layer to close the just-accepted Connection
    handle"; and line 130 of the source: "Return value of -1 means close
    the socket." *)
Definition ni_socket_accept (sock : ptr) (uid gid : N) : prog unit :=
  rv <- wicked_accept_connection sock uid gid;
  if rv =? -1 then do (ni_socket_close sock) else Ret tt.

(** Modelled from the spec: [ni_socket_wait] as [main] loops on it, over
    the sources that become ready.  Section 5: "each ready source is
    drained by invoking its handler synchronously to completion before
    returning to the wait". *)
Fixpoint main_loop (sources : list ready) : prog unit :=
  match sources with
  | [] => Ret tt
  | Incoming sock uid gid :: rest =>
      ni_socket_accept sock uid gid;; main_loop rest
  | Kernel nih ifp event :: rest =>
      wicked_interface_event nih ifp event;; main_loop rest
  end.

End Daemon.

(** ** Reading a trace *)

Section Traces.

Context {ni_wicked_request_t : Type}.
Local Abbreviation call := (call ni_wicked_request_t).
Local Abbreviation step := (step ni_wicked_request_t).

(** The calls [wicked_process_network_restcall] is made of. *)
Definition is_handler_call (e : step) : bool :=
  match e with
  | Called ni_wicked_request_init _
  | Called (ni_wicked_request_parse _ _) _
  | Called (ni_wicked_call_direct _) _
  | Called (ni_wicked_response_print _ _ _) _
  | Called (ni_wicked_request_destroy _) _ => true
  | _ => false
  end.

(** Every response written: the socket and the status. *)
Fixpoint responses (tr : list step) : list (ptr * Z) :=
  match tr with
  | [] => []
  | Called (ni_wicked_response_print sock _ rv) _ :: tr' =>
      (sock, rv) :: responses tr'
  | _ :: tr' => responses tr'
  end.

(** Every policy handed to [ni_policy_apply], with the node it was
    applied to. *)
Fixpoint applied (tr : list step) : list (ni_policy_t * ptr) :=
  match tr with
  | [] => []
  | Called (ni_policy_apply policy ifnode) _ :: tr' =>
      (policy, ifnode) :: applied tr'
  | _ :: tr' => applied tr'
  end.

(** Every policy the matcher was asked for, with its answer. *)
Fixpoint matched (tr : list step) : list (option ni_policy_t) :=
  match tr with
  | [] => []
  | Called (ni_policy_match_event _ _) r :: tr' => r :: matched tr'
  | _ :: tr' => matched tr'
  end.

(** Every buffer [snprintf] filled: the daemon's only use of it is
    [restpath]. *)
Fixpoint restpaths (tr : list step) : list string :=
  match tr with
  | [] => []
  | Called (snprintf _ _ _) buf :: tr' => buf :: restpaths tr'
  | _ :: tr' => restpaths tr'
  end.

(** The calls into the XML model, the serialiser and the policy store:
    everything the pipeline does to build a document and evaluate it. *)
Definition is_pipeline_call (e : step) : bool :=
  match e with
  | Called (xml_node_new _ _) _
  | Called (xml_node_add_attr _ _ _) _
  | Called (xml_node_replace_child _ _) _
  | Called ni_default_xml_syntax _
  | Called (ni_syntax_xml_from_interface _ _ _) _
  | Called ni_default_policies _
  | Called (ni_policy_match_event _ _) _
  | Called (ni_policy_apply _ _) _ => true
  | _ => false
  end.

(** The step at which the pipeline gives an event up: the serialiser
    answered [NULL], the matcher answered none, or the transform answered
    a negative value. *)
Definition gives_up (e : step) : bool :=
  match e with
  | Called c r =>
      match c as c0 return reply c0 -> bool with
      | ni_syntax_xml_from_interface _ _ _ => fun ifnode => ifnode =? NULL
      | ni_policy_match_event _ _ =>
          fun policy => if policy is None then true else false
      | ni_policy_apply _ _ => fun rv => rv <? 0
      | _ => fun _ => false
      end r
  | Forked _ => false
  end.

(** What the [out:] label adds to the trace. *)
Definition released (evnode : ptr) : list step :=
  if negb (evnode =? NULL) then [Called (xml_node_free evnode) tt] else [].

(** Did some [ni_policy_apply] report success?  Then the event was
    matched and applied. *)
Definition applied_ok (tr : list step) : bool :=
  existsb (fun e =>
             match e with
             | Called c r =>
                 match c as c0 return reply c0 -> bool with
                 | ni_policy_apply _ _ => fun rv => 0 <=? rv
                 | _ => fun _ => false
                 end r
             | Forked _ => false
             end) tr.

(** The traces of all the processes of an execution. *)
Definition all_traces {L A} (e : execution ni_wicked_request_t L A)
  : list (list step) :=
  proc_trace (parent e) :: map (fun ch => proc_trace (snd ch)) (children e).

(** Every response written by any process of an execution. *)
Definition all_responses {L A} (e : execution ni_wicked_request_t L A)
  : list (ptr * Z) :=
  concat (map responses (all_traces e)).

(** The trace of [wicked_interface_event] on an event that passes the
    filter, as a function of what the callees answered: the kind's name,
    the event node, the syntax handle, the interface node, the store, the
    matched policy and the result of the transform.  [event_trace] proves
    that the function's traces have this shape. *)
Definition pipeline_trace (nih : ptr) (ifp : ni_interface_t) (kind : string)
    (evnode syntax ifnode policies : ptr) (policy : option ni_policy_t)
    (rv : Z) : list step :=
  [Called (ni_debug_events "%s: %s event" [ArgS (name ifp); ArgS kind]) tt;
   Called (xml_node_new "event" NULL) evnode;
   Called (xml_node_add_attr evnode "type" kind) tt;
   Called ni_default_xml_syntax syntax;
   Called (ni_syntax_xml_from_interface syntax nih ifp) ifnode] ++
  if ifnode =? NULL then released evnode else
  [Called (xml_node_replace_child evnode ifnode) tt;
   Called ni_default_policies policies;
   Called (ni_policy_match_event policies evnode) policy] ++
  match policy with
  | None => released evnode
  | Some p =>
      [Called (ni_debug_events "matched a policy (action=%s)"
                               [ArgS (action p)]) tt;
       Called (ni_policy_apply p ifnode) rv] ++
      if rv <? 0 then released evnode else
      Called (snprintf 256 "/system/interface/%s" [ArgS (name ifp)])
             (libc_snprintf 256 "/system/interface/%s" [ArgS (name ifp)])
      :: released evnode
  end.

End Traces.

(** ** The policy store *)

(** Modelled from the spec: a policy of the store and
    [ni_policy_match_event], both in libwicked and not in [wickedd.c].
    Section 3: "Policy: {predicate, action}: predicate decides whether a
    given Event Document matches".  Section 4.3, step 4: the matcher
    "returns the first policy (in store order) whose predicate accepts the
    document, or none".  [D] is the library's view of a document. *)
Record store_entry (D : Type) := {
  entry_policy : ni_policy_t;
  predicate : D -> bool
}.
Arguments entry_policy {D} _.
Arguments predicate {D} _ _.

Definition first_match {D} (store : list (store_entry D)) (doc : D)
  : option ni_policy_t :=
  entry_policy <$> List.find (fun entry => predicate entry doc) store.

(** A library whose matcher is the one of the spec: in every state [l] it
    answers with the first match of the store behind [policies] on the
    document behind [evnode]. *)
Definition implements_matcher {R L D} (lib : library R L)
    (store : L -> ptr -> list (store_entry D)) (document : L -> ptr -> D)
  : Prop :=
  forall (policies evnode : ptr) (l : L),
    fst (respond lib (ni_policy_match_event policies evnode) l)
    = first_match (store l policies) (document l evnode).

(** ** A stand-in for libwicked *)

(** The theorems quantify over the library; to run the daemon on concrete
    inputs one is needed.  This one keeps the attributes of the nodes it
    allocates, matches as the spec says, and answers the remaining calls
    from a script.  A request is the text read so far. *)
Module Standin.

Definition attrs := list (string * string).

Record state := {
  parse_rv : Z;                       (* ni_wicked_request_parse *)
  direct_rv : Z;                      (* ni_wicked_call_direct *)
  fork_pid : option positive;         (* fork *)
  serialized : ptr;                   (* ni_syntax_xml_from_interface *)
  apply_rv : Z;                       (* ni_policy_apply *)
  policies : list (store_entry attrs);
  next_node : ptr;
  nodes : list (ptr * attrs)
}.

Definition document (l : state) (node : ptr) : attrs :=
  default [] (snd <$> List.find (fun n => fst n =? node) (nodes l)).

Definition store (l : state) (_ : ptr) : list (store_entry attrs) :=
  policies l.

Definition alloc (l : state) : state :=
  {| parse_rv := parse_rv l; direct_rv := direct_rv l;
     fork_pid := fork_pid l; serialized := serialized l;
     apply_rv := apply_rv l; policies := policies l;
     next_node := next_node l + 1;
     nodes := (next_node l, []) :: nodes l |}.

Definition add_attr (node : ptr) (attr value : string) (l : state) : state :=
  {| parse_rv := parse_rv l; direct_rv := direct_rv l;
     fork_pid := fork_pid l; serialized := serialized l;
     apply_rv := apply_rv l; policies := policies l;
     next_node := next_node l;
     nodes := (node, (document l node ++ [(attr, value)])%list) :: nodes l |}.

Definition lib : library string state :=
  {| respond := fun c l =>
       match c as c0 return reply c0 * state with
       | ni_wicked_request_init => ("", l)
       | ni_wicked_request_parse _ _ => ((parse_rv l, "GET"), l)
       | ni_wicked_call_direct req => ((direct_rv l, req), l)
       | xml_node_new _ _ => (next_node l, alloc l)
       | xml_node_add_attr node attr value => (tt, add_attr node attr value l)
       | ni_default_xml_syntax => (1, l)
       | ni_syntax_xml_from_interface _ _ _ => (serialized l, l)
       | ni_default_policies => (2, l)
       | ni_policy_match_event ps evnode =>
           (first_match (store l ps) (document l evnode), l)
       | ni_policy_apply _ _ => (apply_rv l, l)
       | snprintf _ _ _ => ("", l)    (* never asked: see [answer] *)
       | _ => (tt, l)
       end;
     os_fork := fun l => (fork_pid l, l) |}.

(** The enumerators as a declaration without initialisers numbers
    them. *)
Definition E : ni_event_enum :=
  {| NI_EVENT_LINK_CREATE := 0; NI_EVENT_LINK_DELETE := 1;
     NI_EVENT_LINK_UP := 2; NI_EVENT_LINK_DOWN := 3;
     NI_EVENT_NETWORK_UP := 4; NI_EVENT_NETWORK_DOWN := 5;
     __NI_EVENT_MAX := 6 |}.

Definition has_attr (attr value : string) (doc : attrs) : bool :=
  existsb (fun a => String.eqb (fst a) attr && String.eqb (snd a) value) doc.

Definition ifdown : ni_policy_t :=
  {| policy_addr := 4096; action := "ifdown" |}.
Definition notify : ni_policy_t :=
  {| policy_addr := 8192; action := "notify" |}.

(** Two policies that both accept a link-down event. *)
Definition two_policies : list (store_entry attrs) :=
  [ {| entry_policy := ifdown; predicate := has_attr "type" "link-down" |};
    {| entry_policy := notify; predicate := fun _ => true |} ].

(** A state in which everything succeeds; [ps] is the policy store. *)
Definition start (ps : list (store_entry attrs)) : state :=
  {| parse_rv := 0; direct_rv := 0; fork_pid := Some 42%positive;
     serialized := 512; apply_rv := 0; policies := ps;
     next_node := 256; nodes := [] |}.

(** The same, but the kernel cannot fork. *)
Definition exhausted (ps : list (store_entry attrs)) : state :=
  {| parse_rv := 0; direct_rv := 0; fork_pid := None;
     serialized := 512; apply_rv := 0; policies := ps;
     next_node := 256; nodes := [] |}.

Definition eth0 : ni_interface_t := {| name := "eth0" |}.

(** An interface whose name has 238 bytes. *)
Definition long_name : string :=
  string_of_list_ascii (List.repeat "a"%char 238).
Definition longif : ni_interface_t := {| name := long_name |}.

End Standin.

(** ** More ways to read a trace *)

Section MoreTraces.

Context {ni_wicked_request_t : Type}.
Local Abbreviation step := (step ni_wicked_request_t).

(** Every [ni_error] message logged: the format and its arguments. *)
Fixpoint errors (tr : list step) : list (string * list fmt_arg) :=
  match tr with
  | [] => []
  | Called (ni_error fmt args) _ :: tr' => (fmt, args) :: errors tr'
  | _ :: tr' => errors tr'
  end.


(** Every value [fork] returned in the process. *)
Fixpoint forks (tr : list step) : list Z :=
  match tr with
  | [] => []
  | Forked pid :: tr' => pid :: forks tr'
  | _ :: tr' => forks tr'
  end.

(** Every value given to an attribute named [attr]. *)
Fixpoint attr_values (attr : string) (tr : list step) : list string :=
  match tr with
  | [] => []
  | Called (xml_node_add_attr _ a value) _ :: tr' =>
      if String.eqb a attr then value :: attr_values attr tr'
      else attr_values attr tr'
  | _ :: tr' => attr_values attr tr'
  end.

(** Every [ni_error] message logged by any process of an execution. *)
Definition all_errors {L A} (e : execution ni_wicked_request_t L A)
  : list (string * list fmt_arg) :=
  concat (map errors (all_traces e)).

End MoreTraces.

(** ** wickedd.c: [main] *)

(** Lines 30-35. *)
Definition OPT_CONFIGFILE : Z := 0.
Definition OPT_DEBUG : Z := 1.
Definition OPT_FOREGROUND : Z := 2.
Definition OPT_NOFORK : Z := 3.

(** <stdio.h> *)
Definition EOF : Z := -1.

(** Lines 46-47, both 0 when [main] starts. *)
Record globals := { opt_foreground : Z; opt_nofork : Z }.

Definition LF : string := String "010" "".
Definition QUOTE : string := String "034" "".

(** The text of lines 64-69. *)
Definition usage_text : string :=
  "./wickedd [options]" ++ LF ++
  "This command understands the following options" ++ LF ++
  "  --config filename" ++ LF ++
  "        Read configuration file <filename> instead of system default."
  ++ LF ++
  "  --debug facility" ++ LF ++
  "        Enable debugging for debug <facility>." ++ LF.

Inductive stream := stdout | stderr.

(** The two functions [main] hands to the library. *)
Inductive callback :=
| accept_callback       (* wicked_accept_connection *)
| event_callback.       (* wicked_interface_event *)

(** The callees of [main], and the one store it makes into library
    memory, [sock->accept = ...]. *)
Inductive sys_call : Type :=
| printf (fmt : string) (args : list fmt_arg)
| fprintf (f : stream) (fmt : string) (args : list fmt_arg)
| ni_set_global_config_path (path : string)
| ni_debug_help (f : stream)
| ni_enable_debug (facility : string)
| ni_init
| ni_server_listen
| set_accept (sock : ptr) (f : callback)
| ni_server_listen_events (f : callback)
| ni_server_background
| ni_log_destination_syslog (ident : string)
| ni_socket_wait (timeout : Z)
| ni_fatal (msg : string).

Definition sys_reply (c : sys_call) : Type :=
  match c with
  | ni_enable_debug _ => Z
  | ni_init => Z
  | ni_server_listen => ptr
  | ni_server_listen_events _ => Z
  | ni_server_background => Z
  | ni_socket_wait _ => Z
  | _ => unit
  end.

(** How a run of [main] ends: it returns a status; or [ni_fatal] ends the
    process; or it stores through a null pointer; or it is still in the
    loop of lines 120-123 after the iterations looked at, the two flags
    being what the callbacks will read.

    Modelled from the spec: [ni_fatal], of libwicked, does not return.
    Section 7: fatal conditions "terminate the entire daemon process
    immediately". *)
Inductive ending :=
| Return (status : Z)
| Fatal
| Fault
| Serving (g : globals).

Inductive boot (A : Type) : Type :=
| Done (a : A)
| Stop (e : ending)
| Ask (c : sys_call) (k : sys_reply c -> boot A).
Arguments Done {A} a.
Arguments Stop {A} e.
Arguments Ask {A} c k.

Fixpoint boot_bind {A B} (p : boot A) (f : A -> boot B) : boot B :=
  match p with
  | Done a => f a
  | Stop e => Stop e
  | Ask c k => Ask c (fun r => boot_bind (k r) f)
  end.

Definition ask (c : sys_call) : boot (sys_reply c) := Ask c Done.

Declare Scope boot_scope.
Delimit Scope boot_scope with boot.
Notation "x <- p ; q" := (boot_bind p (fun x => q))
  (at level 20, p at level 100, q at level 200, only parsing) : boot_scope.
Notation "p ;; q" := (boot_bind p (fun _ => q))
  (at level 100, q at level 200, only parsing, right associativity)
  : boot_scope.

(** [p < q] on two pointers compares their addresses, which are unsigned
    machine words. *)
Definition ptr_ltb (p q : ptr) : bool := (Z.to_N p <? Z.to_N q)%N.

Section Main.

Local Open Scope boot_scope.

(** The label [usage:], lines 62-71. *)
Definition usage {A} : boot A :=
  ask (fprintf stderr usage_text []);;
  Stop (Return 1).

(** The loop of lines 59-98.  [getopt_long] is libc and what it returns
    on a given [argv] is fixed before [main] runs: [parsed] is the sequence
    of its results, each the value returned with [optarg] (the empty string
    where libc leaves it [NULL]).  The loop ends at the first [EOF], or
    when the sequence is over.  What [getopt_long] itself prints about an
    option it rejects is libc's and not in the trace. *)
Fixpoint option_loop (parsed : list (Z * string)) (g : globals)
  : boot globals :=
  match parsed with
  | [] => Done g
  | (c, optarg) :: rest =>
      if c =? EOF then Done g
      else if c =? OPT_CONFIGFILE then
        ask (ni_set_global_config_path optarg);;
        option_loop rest g
      else if c =? OPT_DEBUG then
        if String.eqb optarg "help" then
          ask (printf ("Supported debug facilities:" ++ LF) []);;
          ask (ni_debug_help stdout);;
          Stop (Return 0)
        else
          rv <- ask (ni_enable_debug optarg);
          if rv <? 0 then
            ask (fprintf stderr
                   ("Bad debug facility " ++ QUOTE ++ "%s" ++ QUOTE ++ LF)
                   [ArgS optarg]);;
            Stop (Return 1)
          else option_loop rest g
      else if c =? OPT_FOREGROUND then
        option_loop rest {| opt_foreground := 1; opt_nofork := opt_nofork g |}
      else if c =? OPT_NOFORK then
        option_loop rest
          {| opt_foreground := opt_foreground g; opt_nofork := 1 |}
      else usage
  end.

(** The loop of lines 120-123, for its first [n] iterations. *)
Fixpoint wait_loop (g : globals) (n : nat) : boot Z :=
  match n with
  | O => Stop (Serving g)
  | S n' =>
      rv <- ask (ni_socket_wait (-1));
      if rv <? 0 then
        ask (ni_fatal "ni_socket_wait failed");;
        Stop Fatal
      else wait_loop g n'
  end.

(** [main], lines 53-126.  [optind] and [argc] are their values when the
    option loop is over.  Line 106 compares the pointer [sock] with 0 by
    [<]: the 0 is the null pointer, no address is below it, so the test is
    never true and line 107 is never reached, whatever [ni_server_listen]
    returned.  A null pointer passes too, and line 108 then stores through
    it, which is where such a run ends ([Fault]).  The [exit(0)] of line
    125 follows a loop without exit and is left out. *)
Definition main (parsed : list (Z * string)) (optind argc : Z) (n : nat)
  : boot Z :=
  g <- option_loop parsed {| opt_foreground := 0; opt_nofork := 0 |};
  rv <- ask ni_init;
  if rv <? 0 then Stop (Return 1) else
  if negb (optind =? argc) then usage else
  sock <- ask ni_server_listen;
  if ptr_ltb sock NULL then
    ask (ni_fatal "unable to initialize server socket");;
    Stop Fatal
  else
  if sock =? NULL then Stop Fault else
  ask (set_accept sock accept_callback);;
  (* open global RTNL socket to listen for kernel events *)
  rv <- ask (ni_server_listen_events event_callback);
  if rv <? 0 then
    ask (ni_fatal "unable to initialize netlink listener");;
    Stop Fatal
  else
  (if opt_foreground g =? 0 then
     rv <- ask ni_server_background;
     if rv <? 0 then Stop (Return 1)
     else ask (ni_log_destination_syslog "wickedd")
   else Done tt);;
  wait_loop g n.

End Main.

(** The library and the C library as [main] sees them. *)
Record system (L : Type) := {
  sys_respond : forall c : sys_call, L -> sys_reply c * L
}.
Arguments sys_respond {L} _ c _.

Inductive sys_step :=
| Sys (c : sys_call) (r : sys_reply c).

(** How a program ended, or the value it came to. *)
Inductive finish (A : Type) :=
| Ended (e : ending)
| Value (a : A).
Arguments Ended {A} e.
Arguments Value {A} a.

Record booted (L A : Type) := {
  boot_finish : finish A;
  boot_trace : list sys_step;
  boot_final : L
}.
Arguments boot_finish {L A} _.
Arguments boot_trace {L A} _.
Arguments boot_final {L A} _.

Fixpoint exec {L A} (sys : system L) (p : boot A) (l : L) : booted L A :=
  match p with
  | Done a => {| boot_finish := Value a; boot_trace := []; boot_final := l |}
  | Stop e => {| boot_finish := Ended e; boot_trace := []; boot_final := l |}
  | Ask c k =>
      let '(r, l') := sys_respond sys c l in
      let b := exec sys (k r) l' in
      {| boot_finish := boot_finish b;
         boot_trace := Sys c r :: boot_trace b;
         boot_final := boot_final b |}
  end.

Definition boot_after {L A} (tr : list sys_step) (b : booted L A)
  : booted L A :=
  {| boot_finish := boot_finish b;
     boot_trace := tr ++ boot_trace b;
     boot_final := boot_final b |}.

(** The codes the option loop goes through: those before the first
    [EOF]. *)
Fixpoint codes (parsed : list (Z * string)) : list Z :=
  match parsed with
  | [] => []
  | (c, _) :: rest => if c =? EOF then [] else c :: codes rest
  end.

(** Was [c] called? *)
Definition asked (c : sys_call -> bool) (tr : list sys_step) : bool :=
  existsb (fun s => match s with Sys c' _ => c c' end) tr.

Definition is_ni_init (c : sys_call) : bool :=
  match c with ni_init => true | _ => false end.
Definition is_listen (c : sys_call) : bool :=
  match c with
  | ni_server_listen | ni_server_listen_events _ => true
  | _ => false
  end.
Definition is_background (c : sys_call) : bool :=
  match c with
  | ni_server_background | ni_log_destination_syslog _ => true
  | _ => false
  end.
Definition is_wait (c : sys_call) : bool :=
  match c with ni_socket_wait _ => true | _ => false end.
Definition is_fatal (c : sys_call) : bool :=
  match c with ni_fatal _ => true | _ => false end.

(** What [ni_init], [ni_server_listen], [ni_server_background] and
    [ni_socket_wait] returned, what was written to [stderr], and what
    [ni_fatal] was told. *)
Definition init_result (s : sys_step) : option Z :=
  match s with
  | Sys c r =>
      match c as c0 return sys_reply c0 -> option Z with
      | ni_init => fun rv => Some rv
      | _ => fun _ => None
      end r
  end.
Definition listen_result (s : sys_step) : option ptr :=
  match s with
  | Sys c r =>
      match c as c0 return sys_reply c0 -> option ptr with
      | ni_server_listen => fun sock => Some sock
      | _ => fun _ => None
      end r
  end.
Definition wait_result (s : sys_step) : option Z :=
  match s with
  | Sys c r =>
      match c as c0 return sys_reply c0 -> option Z with
      | ni_socket_wait _ => fun rv => Some rv
      | _ => fun _ => None
      end r
  end.
Definition stderr_line (s : sys_step) : option (string * list fmt_arg) :=
  match s with
  | Sys (fprintf stderr fmt args) _ => Some (fmt, args)
  | _ => None
  end.
Definition fatal_message (s : sys_step) : option string :=
  match s with
  | Sys (ni_fatal msg) _ => Some msg
  | _ => None
  end.

Definition background_result (s : sys_step) : option Z :=
  match s with
  | Sys c r =>
      match c as c0 return sys_reply c0 -> option Z with
      | ni_server_background => fun rv => Some rv
      | _ => fun _ => None
      end r
  end.

Definition init_results (tr : list sys_step) : list Z := omap init_result tr.
Definition background_results (tr : list sys_step) : list Z :=
  omap background_result tr.
Definition sockets (tr : list sys_step) : list ptr := omap listen_result tr.
Definition wait_results (tr : list sys_step) : list Z := omap wait_result tr.
Definition stderr_lines (tr : list sys_step)
  : list (string * list fmt_arg) := omap stderr_line tr.
Definition fatal_messages (tr : list sys_step) : list string :=
  omap fatal_message tr.

(** The end and the trace of the wait loop as a function of what the
    first [n] waits return.  [wait_loop_shape] proves that the loop's runs
    have this shape. *)
Fixpoint wait_shape (g : globals) (n : nat) (rvs : list Z)
  : finish Z * list sys_step :=
  match n, rvs with
  | S n', rv :: rvs' =>
      if rv <? 0 then
        (Ended Fatal,
         [Sys (ni_socket_wait (-1)) rv;
          Sys (ni_fatal "ni_socket_wait failed") tt])
      else
        let '(f, tr) := wait_shape g n' rvs' in
        (f, Sys (ni_socket_wait (-1)) rv :: tr)
  | _, _ => (Ended (Serving g), [])
  end.

(** The end and the trace of [main] past its option loop, as a function
    of the flags the loop left and of what the callees return: [ni_init],
    [ni_server_listen], [ni_server_listen_events], [ni_server_background]
    and the waits.  [main_shape] proves that the runs of [main] have this
    shape. *)
Definition startup_shape (g : globals) (optind argc : Z)
    (init_rv : Z) (sock : ptr) (events_rv background_rv : Z)
    (n : nat) (rvs : list Z) : finish Z * list sys_step :=
  if init_rv <? 0 then (Ended (Return 1), [Sys ni_init init_rv]) else
  if negb (optind =? argc) then
    (Ended (Return 1),
     [Sys ni_init init_rv; Sys (fprintf stderr usage_text []) tt]) else
  if sock =? NULL then
    (Ended Fault, [Sys ni_init init_rv; Sys ni_server_listen sock]) else
  let listening :=
    [Sys ni_init init_rv; Sys ni_server_listen sock;
     Sys (set_accept sock accept_callback) tt;
     Sys (ni_server_listen_events event_callback) events_rv] in
  if events_rv <? 0 then
    (Ended Fatal,
     (listening ++
      [Sys (ni_fatal "unable to initialize netlink listener") tt])%list)
  else
  let '(f, waits) := wait_shape g n rvs in
  if opt_foreground g =? 0 then
    if background_rv <? 0 then
      (Ended (Return 1),
       (listening ++ [Sys ni_server_background background_rv])%list)
    else
      (f, (listening ++
           [Sys ni_server_background background_rv;
            Sys (ni_log_destination_syslog "wickedd") tt] ++ waits)%list)
  else (f, (listening ++ waits)%list).

(** A system in which nothing [main] asks for fails. *)
Definition never_fails {L} (sys : system L) : Prop :=
  forall l : L,
    (forall facility, 0 <= fst (sys_respond sys (ni_enable_debug facility) l))
    /\ 0 <= fst (sys_respond sys ni_init l)
    /\ 0 < fst (sys_respond sys ni_server_listen l)
    /\ (forall f, 0 <= fst (sys_respond sys (ni_server_listen_events f) l))
    /\ 0 <= fst (sys_respond sys ni_server_background l)
    /\ (forall t, 0 <= fst (sys_respond sys (ni_socket_wait t) l)).

(** Results of [getopt_long] that name one of the four options, none of
    them "--debug help". *)
Definition plain_option (o : Z * string) : Prop :=
  fst o = OPT_CONFIGFILE \/ (fst o = OPT_DEBUG /\ snd o <> "help") \/
  fst o = OPT_FOREGROUND \/ fst o = OPT_NOFORK.

(** A stand-in for what [main] calls, which answers from its state: the
    results of [ni_init], [ni_server_listen], [ni_server_listen_events] and
    [ni_server_background], and those of the waits to come (0 when they
    run out).  The only debug facility it knows is "all". *)
Record standin_state := {
  init_answer : Z;
  listen_answer : ptr;
  events_answer : Z;
  background_answer : Z;
  wait_answers : list Z
}.

Definition standin_system : system standin_state :=
  {| sys_respond := fun c l =>
       match c as c0 return sys_reply c0 * standin_state with
       | ni_enable_debug facility =>
           (if String.eqb facility "all" then 0 else -1, l)
       | ni_init => (init_answer l, l)
       | ni_server_listen => (listen_answer l, l)
       | ni_server_listen_events _ => (events_answer l, l)
       | ni_server_background => (background_answer l, l)
       | ni_socket_wait _ =>
           (hd 0 (wait_answers l),
            {| init_answer := init_answer l; listen_answer := listen_answer l;
               events_answer := events_answer l; background_answer := background_answer l;
               wait_answers := tl (wait_answers l) |})
       | _ => (tt, l)
       end |}.

(** A state in which everything succeeds but the waits [rvs] say. *)
Definition healthy (rvs : list Z) : standin_state :=
  {| init_answer := 0; listen_answer := 1024; events_answer := 0; background_answer := 0;
     wait_answers := rvs |}.

(** A system that answers every call with success. *)
Definition steady_system : system unit :=
  {| sys_respond := fun c l =>
       match c as c0 return sys_reply c0 * unit with
       | ni_enable_debug _ => (0, l)
       | ni_init => (0, l)
       | ni_server_listen => (1024, l)
       | ni_server_listen_events _ => (0, l)
       | ni_server_background => (0, l)
       | ni_socket_wait _ => (0, l)
       | _ => (tt, l)
       end |}.

(** * Properties *)

(** ** Strings and [snprintf] *)

Lemma append_cons (c : ascii) (s t : string) :
  String c s ++ t = String c (s ++ t).
Proof. reflexivity. Qed.

Lemma append_nil_r (s : string) : s ++ "" = s.
Proof.
  induction s as [|c s IH]; [reflexivity|]. now rewrite append_cons, IH.
Qed.

Lemma length_append (s t : string) :
  String.length (s ++ t) = (String.length s + String.length t)%nat.
Proof.
  induction s as [|c s IH]; [reflexivity|].
  rewrite append_cons. cbn. now rewrite IH.
Qed.

Lemma length_truncate (n : nat) (s : string) :
  String.length (truncate n s) = Nat.min n (String.length s).
Proof. revert s; induction n; intros [|c s]; cbn; auto. Qed.

Lemma truncate_all (n : nat) (s : string) :
  (String.length s <= n)%nat -> truncate n s = s.
Proof.
  revert s; induction n; intros [|c s]; cbn; intros H; auto; try lia.
  f_equal. apply IHn. lia.
Qed.

(** What line 233 leaves in [restpath]. *)
Lemma snprintf_restpath (ident : string) :
  libc_snprintf 256 "/system/interface/%s" [ArgS ident]
  = truncate 255 ("/system/interface/" ++ ident).
Proof.
  unfold libc_snprintf.
  change (format "/system/interface/%s" [ArgS ident])
    with ("/system/interface/" ++ (ident ++ "")).
  now rewrite append_nil_r.
Qed.

(** ** The table [evtype] *)

Section Table.

Variable E : ni_event_enum.

Lemma designated_kinds : map fst (designated E) = event_kinds E.
Proof. reflexivity. Qed.

(** A slot no initialiser names keeps its value. *)
Lemma foldl_set_slot_other inits table (i : nat) :
  (forall d, In d inits -> N.to_nat (fst d) <> i) ->
  foldl set_slot table inits !! i = table !! i.
Proof.
  revert table; induction inits as [|[k s] inits IH]; intros table H; cbn; auto.
  rewrite IH by (intros d Hd; apply H; now right).
  apply list_lookup_insert_ne. apply (H (k, s)). now left.
Qed.

(** A slot named once, within the table, holds what its initialiser
    says. *)
Lemma foldl_set_slot_key inits table (k : N) (s : string) :
  NoDup (map fst inits) -> In (k, s) inits ->
  (N.to_nat k < length table)%nat ->
  foldl set_slot table inits !! N.to_nat k = Some (Some s).
Proof.
  revert table.
  induction inits as [|[k' s'] inits IH]; intros table Hnd Hin Hlt.
  - destruct Hin.
  - cbn in *. apply NoDup_cons in Hnd as [Hk' Hnd].
    destruct Hin as [Heq|Hin].
    + inversion Heq; subst k' s'.
      rewrite foldl_set_slot_other.
      * now apply list_lookup_insert_eq.
      * intros [k2 s2] Hd Hc. cbn in Hc. apply N2Nat.inj in Hc. subst k2.
        apply Hk'. apply list_elem_of_In. apply (in_map fst _ _ Hd).
    + apply IH; auto. now rewrite length_insert.
Qed.

Lemma evtype_known (k : N) (s : string) :
  enum_ok E -> In (k, s) (designated E) ->
  (__NI_EVENT_MAX E <=? k)%N = false /\
  evtype E !! N.to_nat k = Some (Some s).
Proof.
  intros [Hnd Hlt] Hin.
  assert (Hk : (k < __NI_EVENT_MAX E)%N).
  { rewrite Forall_forall in Hlt. apply Hlt. apply list_elem_of_In.
    rewrite <- designated_kinds. apply (in_map fst _ _ Hin). }
  split; [apply N.leb_gt; exact Hk|].
  apply foldl_set_slot_key; auto.
  rewrite length_replicate. lia.
Qed.

(** A slot that holds anything lies below [__NI_EVENT_MAX]: the
    initialisers do not grow the table. *)
Lemma length_foldl_set_slot inits table :
  length (foldl set_slot table inits) = length table.
Proof.
  revert table; induction inits as [|[k s] inits IH]; intros table; cbn; auto.
  rewrite IH. apply length_insert.
Qed.

Lemma evtype_slot_below_max (k : N) (slot : option string) :
  evtype E !! N.to_nat k = Some slot -> (__NI_EVENT_MAX E <=? k)%N = false.
Proof.
  intros H. apply lookup_lt_Some in H.
  unfold evtype in H. rewrite length_foldl_set_slot, length_replicate in H.
  apply N.leb_gt. lia.
Qed.

Lemma evtype_unknown (k : N) (s : string) :
  ~ In k (event_kinds E) -> evtype E !! N.to_nat k <> Some (Some s).
Proof.
  intros Hk. unfold evtype. rewrite foldl_set_slot_other.
  - intros H. apply lookup_replicate in H as [H _]. discriminate.
  - intros [k' s'] Hd Hc. cbn in Hc. apply N2Nat.inj in Hc. subst k'.
    apply Hk. rewrite <- designated_kinds. apply (in_map fst _ _ Hd).
Qed.

End Table.

(** ** Stepping through a run *)

(** Name the next answer of the library (or of the kernel, for a fork)
    and continue with it. *)
Ltac answer_next :=
  match goal with
  | |- context [respond ?lib ?c ?l] =>
      let r := fresh "r" in
      let l' := fresh "l" in
      destruct (respond lib c l) as [r l'] eqn:?; cbn in *
  | |- context [os_fork ?lib ?l] =>
      let r := fresh "pid" in
      let l' := fresh "l" in
      destruct (os_fork lib l) as [r l'] eqn:?; cbn in *
  end.

(** Follow every path of a run to its end. *)
Ltac all_paths :=
  repeat (cbn in *;
          first [ answer_next
                | match goal with
                  | r : _ * _ |- _ => destruct r
                  | u : unit |- _ => destruct u
                  | p : option positive |- _ => destruct p
                  | |- context [if ?b then _ else _] => destruct b eqn:?
                  end ]).

(** ** The connection acceptor and the request handler *)

Section Acceptor.

Context {R L : Type} (lib : library R L).
Variable E : ni_event_enum.

(** C1.  A connection whose caller is not uid 0 is refused: the acceptor
    is the program "log the refusal, return -1" and nothing else.  Run
    against any library it makes the one [ni_error] call and returns -1, the
    socket layer then closes the connection, no process is forked, and no
    call of the request handler appears in any process. *)
Theorem reject_non_root (opt_nofork : Z) (sock : ptr) (uid gid : N) (l : L) :
  uid <> 0%N ->
  let refusal :=
    ni_error "refusing attempted connection by user %u" [ArgU uid] in
  let e := run lib (wicked_accept_connection opt_nofork sock uid gid) l in
  let s := run lib (ni_socket_accept opt_nofork sock uid gid) l in
  wicked_accept_connection opt_nofork sock uid gid
    = bind (do refusal) (fun _ => Ret (-1)) /\
  proc_outcome (parent e) = Returned (-1) /\
  proc_trace (parent e) = [Called refusal tt] /\
  children e = [] /\
  proc_trace (parent s)
    = [Called refusal tt; Called (ni_socket_close sock) tt] /\
  children s = [] /\
  Forall (fun tr => List.filter is_handler_call tr = []) (all_traces s).
Proof.
  intros Huid. cbv zeta.
  unfold ni_socket_accept, wicked_accept_connection.
  apply N.eqb_neq in Huid. rewrite Huid. cbn [negb].
  split; [reflexivity|].
  cbn. destruct (respond lib _ l) as [[] l1]. cbn.
  destruct (respond lib _ l1) as [[] l2]. cbn.
  repeat split; repeat constructor.
Qed.

(** C2.  The request handler, on any socket and whatever the library
    answers: it initialises a request, parses the stream into it, calls
    [ni_wicked_call_direct] only if the parse result is not negative,
    prints one response whose status is the result of the direct call or
    else the parse failure, destroys the request, and returns; it forks
    nothing.  And for a connection from uid 0 the processes of the acceptor
    together write exactly one response, unless the fork failed and no
    handler ran. *)
Theorem handler_writes_one_response (sock : ptr) (l : L) :
  (let e := run lib (wicked_process_network_restcall sock) l in
   let '(req0, l1) := respond lib ni_wicked_request_init l in
   let '(rv, req1, l2) := respond lib (ni_wicked_request_parse sock req0) l1 in
   proc_outcome (parent e) = Returned tt /\
   children e = [] /\
   length (responses (proc_trace (parent e))) = 1%nat /\
   proc_trace (parent e) =
     if 0 <=? rv then
       let '(rv', req2, l3) := respond lib (ni_wicked_call_direct req1) l2 in
       [Called ni_wicked_request_init req0;
        Called (ni_wicked_request_parse sock req0) (rv, req1);
        Called (ni_wicked_call_direct req1) (rv', req2);
        Called (ni_wicked_response_print sock req2 rv') tt;
        Called (ni_wicked_request_destroy req2) tt]
     else
       [Called ni_wicked_request_init req0;
        Called (ni_wicked_request_parse sock req0) (rv, req1);
        Called (ni_wicked_response_print sock req1 rv) tt;
        Called (ni_wicked_request_destroy req1) tt]) /\
  (forall (opt_nofork : Z) (gid : N),
     let a := run lib (wicked_accept_connection opt_nofork sock 0 gid) l in
     let l1 :=
       snd (respond lib (ni_debug_wicked "accepted connection from uid=%u"
                                         [ArgU 0]) l) in
     length (all_responses a)
     = if (opt_nofork =? 0) && (if fst (os_fork lib l1) is None then true
                                else false)
       then 0%nat else 1%nat).
Proof.
  split.
  - cbn. answer_next. answer_next. destruct r0 as [rv req1]. cbn.
    destruct (0 <=? rv); cbn.
    + answer_next. destruct r0 as [rv' req2]. cbn.
      answer_next. answer_next. destruct r0, r1. auto.
    + answer_next. answer_next. destruct r0, r1. auto.
  - intros opt_nofork gid. cbv zeta.
    unfold all_responses, all_traces, wicked_accept_connection,
      wicked_process_network_restcall.
    cbn. answer_next. destruct (opt_nofork =? 0); cbn.
    + answer_next. destruct pid as [pid|]; all_paths; reflexivity.
    + all_paths; reflexivity.
Qed.

(** C7.  When [fork] fails in a connection from uid 0, the acceptor logs
    the error and returns -1 without forking or exiting, and the main loop
    goes on: serving that connection followed by [rest] is those four steps
    followed by serving [rest]. *)
Theorem fork_failure_rejects (sock : ptr) (gid : N) (rest : list ready)
    (l : L) :
  let accepted :=
    ni_debug_wicked "accepted connection from uid=%u" [ArgU 0] in
  let failure := ni_error "unable to fork worker child: %m" [] in
  let l1 := snd (respond lib accepted l) in
  fst (os_fork lib l1) = None ->
  let l3 := snd (respond lib failure (snd (os_fork lib l1))) in
  let l4 := snd (respond lib (ni_socket_close sock) l3) in
  let e := run lib (wicked_accept_connection 0 sock 0 gid) l in
  let served := run lib (main_loop E 0 (Incoming sock 0 gid :: rest)) l in
  let later := run lib (main_loop E 0 rest) l4 in
  proc_outcome (parent e) = Returned (-1) /\
  proc_trace (parent e)
    = [Called accepted tt; Forked (-1); Called failure tt] /\
  children e = [] /\
  List.filter is_handler_call (proc_trace (parent e)) = [] /\
  proc_outcome (parent served) = proc_outcome (parent later) /\
  proc_trace (parent served)
    = ([Called accepted tt; Forked (-1); Called failure tt;
        Called (ni_socket_close sock) tt] ++ proc_trace (parent later))%list /\
  proc_final (parent served) = proc_final (parent later) /\
  children served = children later.
Proof.
  cbv zeta.
  unfold ni_socket_accept, wicked_accept_connection. cbn.
  destruct (respond lib _ l) as [[] l1]. cbn.
  destruct (os_fork lib l1) as [pid l2]. cbn. intros ->. cbn.
  destruct (respond lib _ l2) as [[] l3]. cbn.
  destruct (respond lib _ l3) as [[] l4]. cbn.
  repeat split.
Qed.

(** C8.  Whatever the caller, the mode and the library's answers, the
    acceptor returns -1 in the process that was called, every process it
    forked ends in [exit(0)], and the socket layer's last step in the
    calling process is to close the connection. *)
Theorem acceptor_always_closes (opt_nofork : Z) (sock : ptr) (uid gid : N)
    (l : L) :
  let e := run lib (wicked_accept_connection opt_nofork sock uid gid) l in
  let s := run lib (ni_socket_accept opt_nofork sock uid gid) l in
  proc_outcome (parent e) = Returned (-1) /\
  Forall (fun ch => proc_outcome (snd ch) = Exited 0) (children e) /\
  proc_outcome (parent s) = Returned tt /\
  last (proc_trace (parent s)) = Some (Called (ni_socket_close sock) tt).
Proof.
  cbv zeta.
  unfold ni_socket_accept, wicked_accept_connection,
    wicked_process_network_restcall.
  all_paths.
  all: repeat split; repeat constructor.
Qed.

End Acceptor.

(** ** The event-to-policy pipeline *)

Section Pipeline.

Context {R L : Type} (lib : library R L).
Variable E : ni_event_enum.

(** The handler does nothing, or its trace is a [pipeline_trace]. *)
Lemma event_trace (nih : ptr) (ifp : ni_interface_t) (event : N) (l : L) :
  let tr :=
    proc_trace (parent (run lib (wicked_interface_event E nih ifp event) l)) in
  tr = [] \/
  exists kind evnode syntax ifnode policies policy rv,
    evtype E !! N.to_nat event = Some (Some kind) /\
    tr = pipeline_trace nih ifp kind evnode syntax ifnode policies policy rv.
Proof.
  cbv zeta. unfold wicked_interface_event.
  destruct (__NI_EVENT_MAX E <=? event)%N; [now left|].
  destruct (evtype E !! N.to_nat event) as [[kind|]|]; [right | now left..].
  exists kind. unfold pipeline_trace, out, released.
  cbn. do 5 answer_next. destruct r, r1.
  exists r0, r2, r3.
  destruct (r3 =? NULL).
  { exists 0, None, 0. split; [reflexivity|]. all_paths; reflexivity. }
  cbn. do 3 answer_next. destruct r. exists r1, r4.
  destruct r4 as [p|].
  2: { exists 0. split; [reflexivity|]. all_paths; reflexivity. }
  cbn. do 2 answer_next. destruct r. exists r4. split; [reflexivity|].
  all_paths; reflexivity.
Qed.

Lemma applied_pipeline nih ifp kind evnode syntax ifnode policies policy rv :
  applied (pipeline_trace (ni_wicked_request_t := R)
             nih ifp kind evnode syntax ifnode policies policy rv)
  = if ifnode =? NULL then []
    else match policy with Some p => [(p, ifnode)] | None => [] end.
Proof.
  unfold pipeline_trace, released.
  destruct (ifnode =? NULL); [|destruct policy as [p|]; [destruct (rv <? 0)|]];
    destruct (negb (evnode =? NULL)); reflexivity.
Qed.

Lemma matched_pipeline nih ifp kind evnode syntax ifnode policies policy rv :
  matched (pipeline_trace (ni_wicked_request_t := R)
             nih ifp kind evnode syntax ifnode policies policy rv)
  = if ifnode =? NULL then [] else [policy].
Proof.
  unfold pipeline_trace, released.
  destruct (ifnode =? NULL); [|destruct policy as [p|]; [destruct (rv <? 0)|]];
    destruct (negb (evnode =? NULL)); reflexivity.
Qed.

(** [restpath] is built exactly when the transform succeeded. *)
Lemma restpaths_event (nih : ptr) (ifp : ni_interface_t) (event : N) (l : L) :
  let tr :=
    proc_trace (parent (run lib (wicked_interface_event E nih ifp event) l)) in
  restpaths tr =
    if applied_ok tr then [truncate 255 ("/system/interface/" ++ name ifp)]
    else [].
Proof.
  cbv zeta.
  destruct (event_trace nih ifp event l)
    as [-> | (kind & evnode & syntax & ifnode & policies & policy & rv
              & _ & ->)];
    [reflexivity|].
  unfold pipeline_trace, released. rewrite snprintf_restpath.
  destruct (ifnode =? NULL);
    [|destruct policy as [p|]; [destruct (rv <? 0) eqn:Hrv|]];
    destruct (negb (evnode =? NULL)); cbn; try reflexivity.
  all: try (apply Z.ltb_lt in Hrv; destruct (0 <=? rv) eqn:Hle;
            [apply Z.leb_le in Hle; lia|reflexivity]).
  all: apply Z.ltb_ge in Hrv; apply Z.leb_le in Hrv; rewrite Hrv; reflexivity.
Qed.

(** C3, as amended.  Against a library whose matcher is the spec's, the
    handler applies at most one policy per event, and which one is fixed by
    the store.  On an event that passes the filter, follow the library's
    answers up to the matching: the event node [evnode] it gave for
    [xml_node_new], the interface node [ifnode] the serialiser gave, the
    store handle [policies] that [ni_default_policies] gave, and the state
    [l7] in which the matcher is asked.  If [ifnode] is [NULL] nothing is
    applied.  Otherwise what is applied is the first policy of the store
    behind [policies], in store order, whose predicate accepts the document
    behind [evnode], applied to [ifnode]: exactly that one if there is one,
    none if no policy matches.  An event stopped by the filter applies
    nothing.  And whenever the matcher returns a policy, that policy and no
    other is applied, once. *)
Theorem at_most_one_policy_applied {D : Type}
    (store : L -> ptr -> list (store_entry D)) (document : L -> ptr -> D)
    (nih : ptr) (ifp : ni_interface_t) (event : N) (l : L) :
  implements_matcher lib store document ->
  let tr :=
    proc_trace (parent (run lib (wicked_interface_event E nih ifp event) l)) in
  (length (applied tr) <= 1)%nat /\
  (forall kind, evtype E !! N.to_nat event = Some (Some kind) ->
     let '(_, l1) :=
       respond lib (ni_debug_events "%s: %s event"
                                    [ArgS (name ifp); ArgS kind]) l in
     let '(evnode, l2) := respond lib (xml_node_new "event" NULL) l1 in
     let '(_, l3) := respond lib (xml_node_add_attr evnode "type" kind) l2 in
     let '(syntax, l4) := respond lib ni_default_xml_syntax l3 in
     let '(ifnode, l5) :=
       respond lib (ni_syntax_xml_from_interface syntax nih ifp) l4 in
     if ifnode =? NULL then applied tr = [] else
     let '(_, l6) := respond lib (xml_node_replace_child evnode ifnode) l5 in
     let '(policies, l7) := respond lib ni_default_policies l6 in
     applied tr
     = match first_match (store l7 policies) (document l7 evnode) with
       | Some policy => [(policy, ifnode)]
       | None => []
       end) /\
  ((forall kind, evtype E !! N.to_nat event <> Some (Some kind)) ->
   applied tr = []) /\
  (forall policy, In (Some policy) (matched tr) ->
     exists ifnode, applied tr = [(policy, ifnode)]).
Proof.
  intros Hm. cbv zeta.
  assert (Hshape :
    (length (applied (proc_trace (parent
               (run lib (wicked_interface_event E nih ifp event) l))))
     <= 1)%nat /\
    forall policy,
      In (Some policy)
         (matched (proc_trace (parent
                     (run lib (wicked_interface_event E nih ifp event) l)))) ->
      exists ifnode,
        applied (proc_trace (parent
                   (run lib (wicked_interface_event E nih ifp event) l)))
        = [(policy, ifnode)]).
  { destruct (event_trace nih ifp event l)
      as [Htr | (kind & evnode & syntax & ifnode & policies & policy & rv
                 & _ & Htr)];
      rewrite Htr; clear Htr.
    { cbn. split; [lia|intros ? []]. }
    rewrite applied_pipeline, matched_pipeline.
    destruct (ifnode =? NULL); [cbn; split; [lia|intros ? []]|].
    destruct policy as [p|]; cbn; (split; [lia|]).
    - intros policy [[= <-]|[]]. eauto.
    - intros policy [[=]|[]]. }
  destruct Hshape as [Hone Hmatched].
  split; [exact Hone|]. split; [|split; [|exact Hmatched]].
  - intros kind Hslot.
    unfold wicked_interface_event, out.
    rewrite (evtype_slot_below_max E event _ Hslot), Hslot.
    cbn. do 5 answer_next. destruct r, r1.
    destruct (r3 =? NULL) eqn:Hif.
    { all_paths; reflexivity. }
    cbn. do 2 answer_next. destruct r.
    pose proof (Hm r1 r0 l6) as Hfirst.
    destruct (respond lib (ni_policy_match_event r1 r0) l6) as [found l7].
    cbn in Hfirst. rewrite <- Hfirst.
    destruct found as [policy|]; all_paths; reflexivity.
  - intros Hnone.
    destruct (event_trace nih ifp event l)
      as [-> | (kind & _ & _ & _ & _ & _ & _ & Hslot & _)];
      [reflexivity|].
    now apply Hnone in Hslot.
Qed.

(** C4.  An event whose kind is none of the six is dropped at the
    filter: the handler is the empty program, so it returns with no call
    made (no node built, nothing serialised, no policy looked up), no
    process forked and the library's state untouched. *)
Theorem unknown_event_discarded (nih : ptr) (ifp : ni_interface_t)
    (event : N) (l : L) :
  ~ In event (event_kinds E) ->
  let e := run lib (wicked_interface_event E nih ifp event) l in
  wicked_interface_event E nih ifp event = (Ret tt : prog R unit) /\
  proc_outcome (parent e) = Returned tt /\
  proc_trace (parent e) = [] /\
  List.filter is_pipeline_call (proc_trace (parent e)) = [] /\
  children e = [] /\
  proc_final (parent e) = l.
Proof.
  intros Hk.
  assert (Hret : wicked_interface_event (ni_wicked_request_t := R)
                   E nih ifp event = Ret tt).
  { unfold wicked_interface_event.
    destruct (__NI_EVENT_MAX E <=? event)%N; [reflexivity|].
    destruct (evtype E !! N.to_nat event) as [[kind|]|] eqn:Hslot;
      try reflexivity.
    now apply evtype_unknown in Hslot. }
  cbv zeta. rewrite Hret. cbn. auto 6.
Qed.

(** Where the pipeline gives up, the trace is cut: the release and
    nothing else follows. *)
Lemma abandoned_event_cut (nih : ptr) (ifp : ni_interface_t) (event : N)
    (l : L) (ev : step R) :
  let tr :=
    proc_trace (parent (run lib (wicked_interface_event E nih ifp event) l)) in
  In ev tr -> gives_up ev = true ->
  exists (before : list (step R)) (evnode : ptr),
    In (Called (xml_node_new "event" NULL) evnode) before /\
    tr = (before ++ ev :: released evnode)%list /\
    applied before = [] /\
    restpaths tr = [].
Proof.
  cbv zeta.
  destruct (event_trace nih ifp event l)
    as [-> | (kind & evnode & syntax & ifnode & policies & policy & rv
              & _ & ->)];
    [intros []|].
  unfold pipeline_trace, released.
  destruct (ifnode =? NULL) eqn:Hif;
    [|destruct policy as [p|]; [destruct (rv <? 0) eqn:Hrv|]];
    destruct (negb (evnode =? NULL)) eqn:Hev; cbn; intros Hin Hg.
  all: repeat (destruct Hin as [<-|Hin]; [try discriminate Hg|]);
       try destruct Hin.
  all: cbn in Hg; try congruence.
  all: let finish := (split; [|split; [reflexivity|split; reflexivity]]);
                     cbn; auto in
       first [ solve [eexists [_; _; _; _], evnode; rewrite Hev; finish]
             | solve [eexists [_; _; _; _; _; _; _], evnode; rewrite Hev;
                      finish]
             | solve [eexists [_; _; _; _; _; _; _; _; _], evnode;
                      rewrite Hev; finish] ].
Qed.

(** C5.  If the serialiser answers [NULL], or the matcher answers none,
    or the transform answers a negative value, that step is followed by
    the release of the event node created at the start ([released]: the
    [xml_node_free] of the [out:] label) and by nothing else, so the
    handler's last step frees the event node; no policy was applied before
    the step and no [restpath] is ever built. *)
Theorem abandoned_event_released (nih : ptr) (ifp : ni_interface_t)
    (event : N) (l : L) (ev : step R) :
  let tr :=
    proc_trace (parent (run lib (wicked_interface_event E nih ifp event) l)) in
  In ev tr -> gives_up ev = true ->
  exists (before : list (step R)) (evnode : ptr),
    In (Called (xml_node_new "event" NULL) evnode) before /\
    tr = (before ++ ev :: released evnode)%list /\
    (evnode <> NULL -> last tr = Some (Called (xml_node_free evnode) tt)) /\
    applied before = [] /\
    restpaths tr = [].
Proof.
  cbv zeta. intros Hin Hg.
  destruct (abandoned_event_cut nih ifp event l ev Hin Hg)
    as (before & evnode & Hnew & Htr & Happ & Hpath).
  exists before, evnode. repeat split; try assumption.
  intros Hnode. rewrite Htr. unfold released.
  apply Z.eqb_neq in Hnode. rewrite Hnode. cbn [negb].
  change (ev :: [Called (xml_node_free evnode) tt])
    with ([ev] ++ [Called (xml_node_free evnode) tt])%list.
  now rewrite !app_assoc, last_snoc.
Qed.

(** C6, as amended.  For a matched and applied event the handler builds
    one [restpath], the first 255 bytes of /system/interface/<name>; it is
    the whole string when the name has at most 237 bytes. *)
Theorem restpath_built (nih : ptr) (ifp : ni_interface_t) (event : N)
    (l : L) :
  let tr :=
    proc_trace (parent (run lib (wicked_interface_event E nih ifp event) l)) in
  let full := "/system/interface/" ++ name ifp in
  applied_ok tr = true ->
  restpaths tr = [truncate 255 full] /\
  ((String.length (name ifp) <= 237)%nat -> restpaths tr = [full]).
Proof.
  cbv zeta. intros Hok. rewrite restpaths_event, Hok. split; [reflexivity|].
  intros Hlen. rewrite truncate_all; [reflexivity|].
  rewrite length_append. cbn. lia.
Qed.

(** C9.  For an event of each of the six kinds the handler starts by
    logging the event, creating a node named event and giving it the
    attribute type, whose value is the kind's name: link-create for
    [NI_EVENT_LINK_CREATE], link-delete for [NI_EVENT_LINK_DELETE], link-up
    for [NI_EVENT_LINK_UP], link-down for [NI_EVENT_LINK_DOWN], network-up
    for [NI_EVENT_NETWORK_UP] and network-down for
    [NI_EVENT_NETWORK_DOWN]. *)
Theorem known_event_document (nih : ptr) (ifp : ni_interface_t) (l : L) :
  enum_ok E ->
  let builds (event : N) (kind : string) :=
    exists (evnode : ptr) (rest : list (step R)),
      proc_trace (parent (run lib (wicked_interface_event E nih ifp event) l))
      = Called (ni_debug_events "%s: %s event" [ArgS (name ifp); ArgS kind]) tt
        :: Called (xml_node_new "event" NULL) evnode
        :: Called (xml_node_add_attr evnode "type" kind) tt
        :: rest in
  builds (NI_EVENT_LINK_CREATE E) "link-create" /\
  builds (NI_EVENT_LINK_DELETE E) "link-delete" /\
  builds (NI_EVENT_LINK_UP E) "link-up" /\
  builds (NI_EVENT_LINK_DOWN E) "link-down" /\
  builds (NI_EVENT_NETWORK_UP E) "network-up" /\
  builds (NI_EVENT_NETWORK_DOWN E) "network-down".
Proof.
  intros Hok. cbv zeta.
  assert (Hbuilds : forall event kind,
    In (event, kind) (designated E) ->
    exists (evnode : ptr) (rest : list (step R)),
      proc_trace (parent (run lib (wicked_interface_event E nih ifp event) l))
      = Called (ni_debug_events "%s: %s event" [ArgS (name ifp); ArgS kind]) tt
        :: Called (xml_node_new "event" NULL) evnode
        :: Called (xml_node_add_attr evnode "type" kind) tt
        :: rest).
  { intros event kind Hin.
    destruct (evtype_known E event kind Hok Hin) as [Hmax Hslot].
    unfold wicked_interface_event. rewrite Hmax, Hslot.
    cbn. do 3 answer_next.
    destruct r, r1. eauto. }
  repeat split; apply Hbuilds; unfold designated; cbn; auto 10.
Qed.

(** C10.  Whatever the interface name, every [restpath] the handler
    builds has at most 255 bytes, so it fits the 256-byte buffer with its
    terminator; for a name of more than 237 bytes it is the 255-byte prefix
    of /system/interface/<name> and not that string. *)
Theorem restpath_bounded (nih : ptr) (ifp : ni_interface_t) (event : N)
    (l : L) :
  let tr :=
    proc_trace (parent (run lib (wicked_interface_event E nih ifp event) l)) in
  let full := "/system/interface/" ++ name ifp in
  Forall (fun path => (String.length path <= 255)%nat) (restpaths tr) /\
  ((237 < String.length (name ifp))%nat -> applied_ok tr = true ->
   restpaths tr = [truncate 255 full] /\
   String.length (truncate 255 full) = 255%nat /\
   truncate 255 full <> full).
Proof.
  cbv zeta. rewrite restpaths_event.
  assert (Hlen : String.length
                   (truncate 255 ("/system/interface/" ++ name ifp))
                 = Nat.min 255 (18 + String.length (name ifp))).
  { rewrite length_truncate, length_append. reflexivity. }
  split.
  - destruct (applied_ok _); [|constructor].
    constructor; [|constructor]. rewrite Hlen. apply Nat.le_min_l.
  - intros Hlong ->. split; [reflexivity|].
    rewrite Nat.min_l in Hlen by lia. split; [exact Hlen|].
    intros Heq. rewrite Heq, length_append in Hlen. cbn in Hlen. lia.
Qed.

End Pipeline.

(** * The theorems at work on the stand-in *)

Lemma standin_implements_matcher :
  implements_matcher Standin.lib Standin.store Standin.document.
Proof. intros policies evnode l. reflexivity. Defined.

Lemma standin_enum_ok : enum_ok Standin.E.
Proof.
  split.
  - repeat (apply NoDup_cons; split;
            [rewrite list_elem_of_In; cbn; lia|]).
    apply NoDup_nil_2.
  - repeat (apply Forall_cons; split; [cbn; lia|]). apply Forall_nil_2.
Defined.

(** Scenario A: uid 1000 is refused. *)
Lemma reject_non_root_witness :
  1000%N <> 0%N /\
  let refusal :=
    ni_error "refusing attempted connection by user %u" [ArgU 1000] in
  let e := run Standin.lib (wicked_accept_connection 0 7 1000 1000)
               (Standin.start []) in
  let s := run Standin.lib (ni_socket_accept 0 7 1000 1000)
               (Standin.start []) in
  wicked_accept_connection 0 7 1000 1000
    = bind (do refusal) (fun _ => Ret (-1)) /\
  proc_outcome (parent e) = Returned (-1) /\
  proc_trace (parent e) = [Called refusal tt] /\
  children e = [] /\
  proc_trace (parent s) = [Called refusal tt; Called (ni_socket_close 7) tt] /\
  children s = [] /\
  Forall (fun tr => List.filter is_handler_call tr = []) (all_traces s).
Proof.
  assert (H : 1000%N <> 0%N) by lia.
  split; [exact H|].
  exact (reject_non_root Standin.lib 0 7 1000 1000 (Standin.start []) H).
Defined.

(** Scenario E: a link-down event on eth0 against an empty store builds
    the document, finds no policy and applies none; so it is not the case
    that exactly one policy is applied for every event. *)
Lemma exactly_one_policy_fails :
  let tr :=
    proc_trace (parent (run Standin.lib
                            (wicked_interface_event Standin.E 0 Standin.eth0 3)
                            (Standin.start []))) in
  matched tr = [None] /\ applied tr = [] /\ length (applied tr) <> 1%nat.
Proof. vm_compute. repeat split. discriminate. Qed.

(** Scenario D with a second policy that matches too: the store holds
    ifdown, then notify, both accept the link-down document, and ifdown,
    the first, is the one applied, to node 512, the interface node. *)
Lemma at_most_one_policy_applied_witness :
  implements_matcher Standin.lib Standin.store Standin.document /\
  evtype Standin.E !! N.to_nat 3 = Some (Some "link-down") /\
  map entry_policy Standin.two_policies = [Standin.ifdown; Standin.notify] /\
  Forall (fun entry => predicate entry [("type", "link-down")] = true)
         Standin.two_policies /\
  let tr :=
    proc_trace (parent (run Standin.lib
                            (wicked_interface_event Standin.E 0 Standin.eth0 3)
                            (Standin.start Standin.two_policies))) in
  applied tr = [(Standin.ifdown, 512)].
Proof.
  assert (Hslot : evtype Standin.E !! N.to_nat 3 = Some (Some "link-down"))
    by reflexivity.
  split; [exact standin_implements_matcher|]. split; [exact Hslot|].
  split; [reflexivity|]. split; [repeat constructor|].
  exact (proj1 (proj2 (at_most_one_policy_applied Standin.lib Standin.E
                         Standin.store Standin.document 0 Standin.eth0 3
                         (Standin.start Standin.two_policies)
                         standin_implements_matcher))
               "link-down" Hslot).
Defined.

(** An event numbered 9 is none of the six. *)
Lemma unknown_event_discarded_witness :
  ~ In 9%N (event_kinds Standin.E) /\
  let e := run Standin.lib (wicked_interface_event Standin.E 0 Standin.eth0 9)
               (Standin.start Standin.two_policies) in
  wicked_interface_event Standin.E 0 Standin.eth0 9
    = (Ret tt : prog string unit) /\
  proc_outcome (parent e) = Returned tt /\
  proc_trace (parent e) = [] /\
  List.filter is_pipeline_call (proc_trace (parent e)) = [] /\
  children e = [] /\
  proc_final (parent e) = Standin.start Standin.two_policies.
Proof.
  assert (H : ~ In 9%N (event_kinds Standin.E)) by (cbn; lia).
  split; [exact H|].
  exact (unknown_event_discarded Standin.lib Standin.E 0 Standin.eth0 9
           (Standin.start Standin.two_policies) H).
Defined.

(** Scenario E again: the matcher's empty answer is followed by the
    release of node 256 alone. *)
Lemma abandoned_event_released_witness :
  let ev : step string := Called (ni_policy_match_event 2 256) None in
  let tr :=
    proc_trace (parent (run Standin.lib
                            (wicked_interface_event Standin.E 0 Standin.eth0 3)
                            (Standin.start []))) in
  In ev tr /\ gives_up ev = true /\
  exists (before : list (step string)) (evnode : ptr),
    In (Called (xml_node_new "event" NULL) evnode) before /\
    tr = (before ++ ev :: released evnode)%list /\
    (evnode <> NULL -> last tr = Some (Called (xml_node_free evnode) tt)) /\
    applied before = [] /\
    restpaths tr = [].
Proof.
  cbv zeta.
  assert (Hin : In (Called (ni_policy_match_event 2 256) None : step string)
                   (proc_trace
                      (parent (run Standin.lib
                                 (wicked_interface_event Standin.E 0
                                    Standin.eth0 3)
                                 (Standin.start [])))))
    by (vm_compute; do 7 right; left; reflexivity).
  assert (Hg : gives_up (Called (ni_policy_match_event 2 256) None
                         : step string) = true) by reflexivity.
  split; [exact Hin|]. split; [exact Hg|].
  exact (abandoned_event_released Standin.lib Standin.E 0 Standin.eth0 3
           (Standin.start []) _ Hin Hg).
Defined.

(** An interface name of 238 bytes: the path built is not
    /system/interface/<name>. *)
Lemma restpath_exact_fails :
  let tr :=
    proc_trace (parent (run Standin.lib
                            (wicked_interface_event Standin.E 0
                               Standin.longif 3)
                            (Standin.start Standin.two_policies))) in
  applied_ok tr = true /\
  restpaths tr <> ["/system/interface/" ++ name Standin.longif].
Proof.
  cbv zeta. split; [reflexivity|].
  intros H. apply (f_equal (map String.length)) in H.
  vm_compute in H. discriminate H.
Qed.

(** Scenario D: /system/interface/eth0. *)
Lemma restpath_built_witness :
  let tr :=
    proc_trace (parent (run Standin.lib
                            (wicked_interface_event Standin.E 0 Standin.eth0 3)
                            (Standin.start Standin.two_policies))) in
  let full := "/system/interface/" ++ name Standin.eth0 in
  applied_ok tr = true /\
  restpaths tr = [truncate 255 full] /\
  ((String.length (name Standin.eth0) <= 237)%nat -> restpaths tr = [full]).
Proof.
  cbv zeta.
  assert (H : applied_ok
                (proc_trace
                   (parent (run Standin.lib
                              (wicked_interface_event Standin.E 0
                                 Standin.eth0 3)
                              (Standin.start Standin.two_policies)))) = true)
    by reflexivity.
  split; [exact H|].
  exact (restpath_built Standin.lib Standin.E 0 Standin.eth0 3
           (Standin.start Standin.two_policies) H).
Defined.

(** Scenario F: the fork fails, the connection is closed and the loop
    serves the next one, here an event. *)
Lemma fork_failure_rejects_witness :
  let accepted : call string :=
    ni_debug_wicked "accepted connection from uid=%u" [ArgU 0] in
  let failure : call string :=
    ni_error "unable to fork worker child: %m" [] in
  let l := Standin.exhausted [] in
  let rest := [Kernel 0 Standin.eth0 3] in
  let l1 := snd (respond Standin.lib accepted l) in
  fst (os_fork Standin.lib l1) = None /\
  let l3 := snd (respond Standin.lib failure (snd (os_fork Standin.lib l1))) in
  let l4 := snd (respond Standin.lib (ni_socket_close 7) l3) in
  let e := run Standin.lib (wicked_accept_connection 0 7 0 0) l in
  let served :=
    run Standin.lib (main_loop Standin.E 0 (Incoming 7 0 0 :: rest)) l in
  let later := run Standin.lib (main_loop Standin.E 0 rest) l4 in
  proc_outcome (parent e) = Returned (-1) /\
  proc_trace (parent e)
    = [Called accepted tt; Forked (-1); Called failure tt] /\
  children e = [] /\
  List.filter is_handler_call (proc_trace (parent e)) = [] /\
  proc_outcome (parent served) = proc_outcome (parent later) /\
  proc_trace (parent served)
    = ([Called accepted tt; Forked (-1); Called failure tt;
        Called (ni_socket_close 7) tt] ++ proc_trace (parent later))%list /\
  proc_final (parent served) = proc_final (parent later) /\
  children served = children later.
Proof.
  cbv zeta. split; [reflexivity|].
  exact (fork_failure_rejects Standin.lib Standin.E 7 0
           [Kernel 0 Standin.eth0 3] (Standin.exhausted []) eq_refl).
Defined.

(** With the enumerators numbered from 0: event 3 gives a node named
    event with type = link-down, and so on for the other five. *)
Lemma known_event_document_witness :
  enum_ok Standin.E /\
  let builds (event : N) (kind : string) :=
    exists (evnode : ptr) (rest : list (step string)),
      proc_trace (parent (run Standin.lib
                              (wicked_interface_event Standin.E 0 Standin.eth0
                                 event)
                              (Standin.start [])))
      = Called (ni_debug_events "%s: %s event"
                                [ArgS (name Standin.eth0); ArgS kind]) tt
        :: Called (xml_node_new "event" NULL) evnode
        :: Called (xml_node_add_attr evnode "type" kind) tt
        :: rest in
  builds 0%N "link-create" /\
  builds 1%N "link-delete" /\
  builds 2%N "link-up" /\
  builds 3%N "link-down" /\
  builds 4%N "network-up" /\
  builds 5%N "network-down".
Proof.
  split; [exact standin_enum_ok|].
  exact (known_event_document Standin.lib Standin.E 0 Standin.eth0
           (Standin.start []) standin_enum_ok).
Defined.

(** The 238-byte name again: the path has 255 bytes and is cut. *)
Lemma restpath_bounded_witness :
  let tr :=
    proc_trace (parent (run Standin.lib
                            (wicked_interface_event Standin.E 0
                               Standin.longif 3)
                            (Standin.start Standin.two_policies))) in
  let full := "/system/interface/" ++ name Standin.longif in
  (237 < String.length (name Standin.longif))%nat /\
  applied_ok tr = true /\
  Forall (fun path => (String.length path <= 255)%nat) (restpaths tr) /\
  restpaths tr = [truncate 255 full] /\
  String.length (truncate 255 full) = 255%nat /\
  truncate 255 full <> full.
Proof.
  cbv zeta.
  assert (Hlong : (237 < String.length (name Standin.longif))%nat)
    by (vm_compute; lia).
  assert (Hok : applied_ok
                  (proc_trace
                     (parent (run Standin.lib
                                (wicked_interface_event Standin.E 0
                                   Standin.longif 3)
                                (Standin.start Standin.two_policies))))
                = true) by reflexivity.
  split; [exact Hlong|]. split; [exact Hok|].
  destruct (restpath_bounded Standin.lib Standin.E 0 Standin.longif 3
              (Standin.start Standin.two_policies)) as [Hall Hcut].
  split; [exact Hall|]. exact (Hcut Hlong Hok).
Defined.

(** * More properties *)


(** ** The acceptor and its worker *)

Section Worker.

Context {R L : Type} (lib : library R L).

(** X1.  Every connection is either handled or refused with an error in the
    log, never both and never neither: over all the processes of the
    acceptor, the responses written and the errors logged number one. *)
Theorem handled_or_logged (opt_nofork : Z) (sock : ptr) (uid gid : N)
    (l : L) :
  let e := run lib (wicked_accept_connection opt_nofork sock uid gid) l in
  (length (all_responses e) + length (all_errors e) = 1)%nat.
Proof.
  cbv zeta.
  unfold all_responses, all_errors, all_traces, wicked_accept_connection,
    wicked_process_network_restcall.
  all_paths; reflexivity.
Qed.

(** X2.  In no-fork mode the acceptor is its log line followed by the request
    handler, run in the calling process: no [fork], no child, and the state
    left is the one the handler leaves. *)
Theorem inline_mode_runs_handler (opt_nofork : Z) (sock : ptr) (gid : N)
    (l : L) :
  opt_nofork <> 0 ->
  let accepted :=
    ni_debug_wicked "accepted connection from uid=%u" [ArgU 0] in
  let e := run lib (wicked_accept_connection opt_nofork sock 0 gid) l in
  let h := run lib (wicked_process_network_restcall sock)
               (snd (respond lib accepted l)) in
  proc_trace (parent e) = Called accepted tt :: proc_trace (parent h) /\
  proc_final (parent e) = proc_final (parent h) /\
  forks (proc_trace (parent e)) = [] /\
  children e = [].
Proof.
  intros Hmode. cbv zeta.
  unfold wicked_accept_connection, wicked_process_network_restcall.
  apply Z.eqb_neq in Hmode. rewrite Hmode.
  all_paths; repeat split.
Qed.

(** X3.  When the fork succeeds, the caller's process does nothing for the
    request, and the worker does nothing but the request: whatever program
    [k] the caller goes on with after the acceptor returns, the worker's
    trace is the handler's and it ends in [exit(0)] without running any of
    [k]; the caller's trace is the log line, the fork, then [k] on -1. *)
Theorem worker_runs_handler_only {A : Type} (sock : ptr) (gid : N)
    (k : Z -> prog R A) (pid : positive) (l : L) :
  let accepted :=
    ni_debug_wicked "accepted connection from uid=%u" [ArgU 0] in
  let l1 := snd (respond lib accepted l) in
  fst (os_fork lib l1) = Some pid ->
  let l2 := snd (os_fork lib l1) in
  let e := run lib (bind (wicked_accept_connection 0 sock 0 gid) k) l in
  let h := run lib (wicked_process_network_restcall sock) l2 in
  let later := run lib (k (-1)) l2 in
  proc_trace (parent e)
    = Called accepted tt :: Forked (Z.pos pid) :: proc_trace (parent later) /\
  proc_outcome (parent e) = proc_outcome (parent later) /\
  children e
    = (pid, {| proc_outcome := Exited 0;
               proc_trace := Forked 0 :: proc_trace (parent h);
               proc_final := proc_final (parent h) |})
        :: children later.
Proof.
  cbv zeta.
  unfold wicked_accept_connection, wicked_process_network_restcall.
  cbn. destruct (respond lib _ l) as [[] l1]. cbn.
  destruct (os_fork lib l1) as [p l2]. cbn. intros ->. cbn.
  destruct (run lib (k (-1)) l2) as [later_parent later_children] eqn:Hk.
  all_paths; repeat split.
Qed.

End Worker.

(** ** The event handler *)

Section MorePipeline.

Context {R L : Type} (lib : library R L).
Variable E : ni_event_enum.

(** A slot that is not [NULL] holds a name some initialiser gave it. *)
Lemma foldl_set_slot_from inits table (i : nat) (s : string) :
  foldl set_slot table inits !! i = Some (Some s) ->
  table !! i = Some (Some s) \/ In s (map snd inits).
Proof.
  revert table; induction inits as [|[k s'] inits IH]; intros table H; cbn in *.
  - now left.
  - apply IH in H as [H|H]; [|now right; right].
    destruct (decide (N.to_nat k = i)) as [<-|Hne].
    + destruct (decide (N.to_nat k < length table)%nat) as [Hlt|Hge].
      * rewrite list_lookup_insert_eq in H by exact Hlt.
        right. left. congruence.
      * rewrite list_insert_ge in H by lia. now left.
    + rewrite list_lookup_insert_ne in H by exact Hne. now left.
Qed.

(** X5.  Whatever the values of the enumerators, and whatever the library
    answers, the type attribute the handler gives an event node is one of
    the six names of the table. *)
Theorem event_type_is_a_table_name (nih : ptr) (ifp : ni_interface_t)
    (event : N) (l : L) :
  let tr :=
    proc_trace (parent (run lib (wicked_interface_event E nih ifp event) l)) in
  Forall (fun kind =>
            In kind ["link-create"; "link-delete"; "link-up"; "link-down";
                     "network-up"; "network-down"])
         (attr_values "type" tr).
Proof.
  cbv zeta.
  destruct (event_trace lib E nih ifp event l)
    as [-> | (kind & evnode & syntax & ifnode & policies & policy & rv
              & Hslot & ->)];
    [constructor|].
  apply foldl_set_slot_from in Hslot as [Hslot|Hslot].
  { apply lookup_replicate in Hslot as [Hslot _]. discriminate. }
  unfold pipeline_trace, released.
  destruct (ifnode =? NULL);
    [|destruct policy as [p|]; [destruct (rv <? 0)|]];
    destruct (negb (evnode =? NULL)); cbn;
    (constructor; [exact Hslot|constructor]).
Qed.


(** X7.  A policy is applied to the node the serialiser returned for this
    interface, and never to [NULL]; and the document it was matched on is
    the node the handler created, after the interface node was attached to
    it. *)
Theorem policy_applied_to_snapshot (nih : ptr) (ifp : ni_interface_t)
    (event : N) (l : L) (policy : ni_policy_t) (ifnode : ptr) :
  let tr :=
    proc_trace (parent (run lib (wicked_interface_event E nih ifp event) l)) in
  In (policy, ifnode) (applied tr) ->
  ifnode <> NULL /\
  exists (syntax evnode policies : ptr) (before after : list (step R)),
    tr = (before ++
          Called (ni_syntax_xml_from_interface syntax nih ifp) ifnode
          :: Called (xml_node_replace_child evnode ifnode) tt
          :: Called ni_default_policies policies
          :: Called (ni_policy_match_event policies evnode) (Some policy)
          :: after)%list /\
    In (Called (xml_node_new "event" NULL) evnode) before.
Proof.
  cbv zeta.
  destruct (event_trace lib E nih ifp event l)
    as [-> | (kind & evnode & syntax & ifnode' & policies & policy' & rv
              & _ & ->)];
    [intros []|].
  rewrite applied_pipeline. unfold pipeline_trace.
  destruct (ifnode' =? NULL) eqn:Hif; [intros []|].
  destruct policy' as [p|]; [|intros []].
  intros [[= <- <-]|[]].
  split; [now apply Z.eqb_neq|].
  exists syntax, evnode, policies. eexists [_; _; _; _], _.
  split; [reflexivity|]. cbn. auto.
Qed.

(** X8.  A path the handler builds is /system/interface/ followed by the
    first 237 bytes of the interface name: the prefix is never cut, and two
    names that agree on their first 237 bytes get the same path. *)
Theorem restpath_keeps_prefix (nih : ptr) (ifp : ni_interface_t)
    (event : N) (l : L) :
  let tr :=
    proc_trace (parent (run lib (wicked_interface_event E nih ifp event) l)) in
  Forall (fun path => path = "/system/interface/" ++ truncate 237 (name ifp))
         (restpaths tr).
Proof.
  cbv zeta. rewrite restpaths_event.
  destruct (applied_ok _); [|constructor].
  constructor; [reflexivity|constructor].
Qed.

End MorePipeline.

(** ** [main] *)

Ltac sys_next :=
  match goal with
  | |- context [sys_respond ?sys ?c ?l] =>
      let r := fresh "r" in
      let l' := fresh "l" in
      destruct (sys_respond sys c l) as [r l'] eqn:?; cbn in *
  end.

Section Startup.

Context {L : Type} (sys : system L).

Lemma exec_bind {A B} (p : boot A) (f : A -> boot B) (l : L) :
  exec sys (boot_bind p f) l
  = match boot_finish (exec sys p l) with
    | Value a =>
        boot_after (boot_trace (exec sys p l))
                   (exec sys (f a) (boot_final (exec sys p l)))
    | Ended e =>
        {| boot_finish := Ended e;
           boot_trace := boot_trace (exec sys p l);
           boot_final := boot_final (exec sys p l) |}
    end.
Proof.
  revert l. induction p as [a|e|c k IH]; intros l; cbn.
  - now destruct (exec sys (f a) l).
  - reflexivity.
  - destruct (sys_respond sys c l) as [r l']. cbn. rewrite IH.
    now destruct (boot_finish (exec sys (k r) l')).
Qed.

(** Line 106: no pointer is below the null pointer. *)
Lemma ptr_ltb_null (p : ptr) : ptr_ltb p NULL = false.
Proof. unfold ptr_ltb. apply N.ltb_ge, N.le_0_l. Qed.

Lemma asked_app (p : sys_call -> bool) (a b : list sys_step) :
  asked p (a ++ b) = asked p a || asked p b.
Proof. apply existsb_app. Qed.

(** The option loop calls nothing but the configuration path, the debug
    facilities and the two streams. *)
Lemma option_loop_quiet (parsed : list (Z * string)) (g : globals) (l : L) :
  let tr := boot_trace (exec sys (option_loop parsed g) l) in
  asked is_ni_init tr = false /\ asked is_listen tr = false /\
  asked is_background tr = false /\ asked is_wait tr = false /\
  asked is_fatal tr = false.
Proof.
  cbv zeta. revert g l.
  induction parsed as [|[c optarg] rest IH]; intros g l; cbn; [auto 6|].
  destruct (c =? EOF); [cbn; auto 6|].
  destruct (c =? OPT_CONFIGFILE).
  { cbn. sys_next. apply IH. }
  destruct (c =? OPT_DEBUG).
  { destruct (String.eqb optarg "help"); cbn.
    - do 2 sys_next. auto 6.
    - sys_next. destruct (r <? 0); cbn; [sys_next; auto 6|apply IH]. }
  destruct (c =? OPT_FOREGROUND); [apply IH|].
  destruct (c =? OPT_NOFORK); [apply IH|].
  cbn. sys_next. auto 6.
Qed.

(** What the loop leaves in the two flags when it runs to its end. *)
Lemma option_loop_flags (parsed : list (Z * string)) (g0 g : globals)
    (l : L) :
  boot_finish (exec sys (option_loop parsed g0) l) = Value g ->
  opt_foreground g
  = (if existsb (Z.eqb OPT_FOREGROUND) (codes parsed) then 1
     else opt_foreground g0) /\
  opt_nofork g
  = (if existsb (Z.eqb OPT_NOFORK) (codes parsed) then 1
     else opt_nofork g0).
Proof.
  revert g0 l.
  induction parsed as [|[c optarg] rest IH]; intros g0 l; cbn.
  { intros [= <-]. auto. }
  destruct (c =? EOF) eqn:Heof; [cbn; intros [= <-]; auto|].
  destruct (c =? OPT_CONFIGFILE) eqn:Hc.
  { apply Z.eqb_eq in Hc. subst c. cbn. sys_next. apply IH. }
  destruct (c =? OPT_DEBUG) eqn:Hd.
  { apply Z.eqb_eq in Hd. subst c.
    destruct (String.eqb optarg "help"); cbn.
    - do 2 sys_next. discriminate.
    - sys_next. destruct (r <? 0); cbn; [sys_next; discriminate|apply IH]. }
  destruct (c =? OPT_FOREGROUND) eqn:Hf.
  { apply Z.eqb_eq in Hf. subst c. cbn. intros H.
    apply IH in H as [H1 H2]. cbn in *. rewrite H1, H2.
    now destruct (existsb _ _), (existsb _ _). }
  destruct (c =? OPT_NOFORK) eqn:Hn.
  { apply Z.eqb_eq in Hn. subst c. cbn. intros H.
    apply IH in H as [H1 H2]. cbn in *. rewrite H1, H2.
    now destruct (existsb _ _), (existsb _ _). }
  cbn. sys_next. discriminate.
Qed.

(** The option loop runs to its end or returns 0 or 1. *)
Lemma option_loop_endings (parsed : list (Z * string)) (g : globals) (l : L)
    (e : ending) :
  boot_finish (exec sys (option_loop parsed g) l) = Ended e ->
  e = Return 0 \/ e = Return 1.
Proof.
  revert g l.
  induction parsed as [|[c optarg] rest IH]; intros g l; cbn; [discriminate|].
  destruct (c =? EOF); [discriminate|].
  destruct (c =? OPT_CONFIGFILE); [cbn; sys_next; apply IH|].
  destruct (c =? OPT_DEBUG).
  { destruct (String.eqb optarg "help"); cbn.
    - do 2 sys_next. intros [= <-]. now left.
    - sys_next. destruct (r <? 0); cbn; [|apply IH].
      sys_next. intros [= <-]. now right. }
  destruct (c =? OPT_FOREGROUND); [apply IH|].
  destruct (c =? OPT_NOFORK); [apply IH|].
  cbn. sys_next. intros [= <-]. now right.
Qed.

Lemma wait_loop_shape (g : globals) (n : nat) (l : L) :
  exists rvs : list Z,
    length rvs = n /\
    (boot_finish (exec sys (wait_loop g n) l),
     boot_trace (exec sys (wait_loop g n) l)) = wait_shape g n rvs.
Proof.
  revert l. induction n as [|n IH]; intros l.
  - exists []. split; reflexivity.
  - cbn. sys_next. destruct (IH l0) as (rvs & Hlen & Hshape).
    exists (r :: rvs). split; [cbn; now rewrite Hlen|].
    cbn. destruct (r <? 0); cbn.
    + sys_next. now destruct r0.
    + destruct (wait_shape g n rvs) as [f tr].
      inversion Hshape as [[Hf Ht]]. reflexivity.
Qed.

(** Every run of [main] is its option loop followed, if the loop runs to
    its end, by a [startup_shape]. *)
Lemma main_shape (parsed : list (Z * string)) (optind argc : Z) (n : nat)
    (l : L) :
  let o :=
    exec sys (option_loop parsed {| opt_foreground := 0; opt_nofork := 0 |})
         l in
  let b := exec sys (main parsed optind argc n) l in
  match boot_finish o with
  | Ended e => boot_finish b = Ended e /\ boot_trace b = boot_trace o
  | Value g =>
      exists (init_rv : Z) (sock : ptr) (events_rv background_rv : Z)
             (rvs : list Z),
        length rvs = n /\
        (boot_finish b, boot_trace b)
        = (fst (startup_shape g optind argc init_rv sock events_rv
                  background_rv n rvs),
           (boot_trace o ++
            snd (startup_shape g optind argc init_rv sock events_rv
                   background_rv n rvs))%list)
  end.
Proof.
  cbv zeta. unfold main. rewrite exec_bind.
  destruct (exec sys (option_loop parsed _) l) as [[e|g] tro lo]; cbn;
    [auto|].
  unfold startup_shape.
  sys_next. exists r. destruct (r <? 0); cbn.
  { exists 0, 0, 0, (repeat 0 n). now rewrite repeat_length. }
  destruct (optind =? argc); cbn.
  2: { sys_next. destruct r0. exists 0, 0, 0, (repeat 0 n).
       now rewrite repeat_length. }
  sys_next. exists r0. rewrite ptr_ltb_null.
  destruct (r0 =? NULL); cbn.
  { exists 0, 0, (repeat 0 n). now rewrite repeat_length. }
  do 2 sys_next. destruct r1. exists r2. destruct (r2 <? 0); cbn.
  { sys_next. destruct r1. exists 0, (repeat 0 n).
    now rewrite repeat_length. }
  destruct (opt_foreground g =? 0); cbn.
  - sys_next. exists r1. destruct (r1 <? 0); cbn.
    { exists (repeat 0 n). rewrite repeat_length.
      split; [reflexivity|]. now destruct (wait_shape g n _). }
    sys_next. destruct r3.
    destruct (wait_loop_shape g n l5) as (rvs & Hlen & Hshape).
    exists rvs. split; [exact Hlen|].
    destruct (wait_shape g n rvs) as [f waits].
    inversion Hshape as [[Hf Ht]]. cbn. now rewrite Hf, Ht.
  - exists 0.
    destruct (wait_loop_shape g n l3) as (rvs & Hlen & Hshape).
    exists rvs. split; [exact Hlen|].
    destruct (wait_shape g n rvs) as [f waits].
    inversion Hshape as [[Hf Ht]]. cbn. now rewrite Hf, Ht.
Qed.

(** The option loop never initialises, listens, waits or dies. *)
Lemma option_loop_silent (parsed : list (Z * string)) (g : globals) (l : L) :
  let tr := boot_trace (exec sys (option_loop parsed g) l) in
  init_results tr = [] /\ sockets tr = [] /\ wait_results tr = [] /\
  fatal_messages tr = [].
Proof.
  cbv zeta. revert g l.
  induction parsed as [|[c optarg] rest IH]; intros g l; cbn; [auto|].
  destruct (c =? EOF); [cbn; auto|].
  destruct (c =? OPT_CONFIGFILE).
  { cbn. sys_next. apply IH. }
  destruct (c =? OPT_DEBUG).
  { destruct (String.eqb optarg "help"); cbn.
    - do 2 sys_next. auto.
    - sys_next. destruct (r <? 0); cbn; [sys_next; auto|apply IH]. }
  destruct (c =? OPT_FOREGROUND); [apply IH|].
  destruct (c =? OPT_NOFORK); [apply IH|].
  cbn. sys_next. auto.
Qed.

(** The option loop writes to [stderr] at most once, as its last step,
    and then returns 1. *)
Lemma option_loop_stderr (parsed : list (Z * string)) (g : globals) (l : L) :
  let o := exec sys (option_loop parsed g) l in
  stderr_lines (boot_trace o) = [] \/
  (boot_finish o = Ended (Return 1) /\
   exists before fmt args,
     boot_trace o = (before ++ [Sys (fprintf stderr fmt args) tt])%list /\
     stderr_lines (boot_trace o) = [(fmt, args)]).
Proof.
  cbv zeta. revert g l.
  induction parsed as [|[c optarg] rest IH]; intros g l; cbn; [now left|].
  destruct (c =? EOF); [now left|].
  destruct (c =? OPT_CONFIGFILE).
  { cbn. sys_next. destruct r.
    destruct (IH g l0) as [H|(Hf & before & fmt & args & Ht & Hs)];
      [now left|right].
    split; [exact Hf|]. exists (Sys (ni_set_global_config_path optarg) tt
                                    :: before), fmt, args.
    rewrite Ht in *. split; [reflexivity|exact Hs]. }
  destruct (c =? OPT_DEBUG).
  { destruct (String.eqb optarg "help"); cbn.
    - do 2 sys_next. now left.
    - sys_next. destruct (r <? 0); cbn.
      + sys_next. destruct r0. right. split; [reflexivity|].
        now eexists [_], _, _.
      + destruct (IH g l0) as [H|(Hf & before & fmt & args & Ht & Hs)];
          [now left|right].
        split; [exact Hf|].
        exists (Sys (ni_enable_debug optarg) r :: before), fmt, args.
        rewrite Ht in *. split; [reflexivity|exact Hs]. }
  destruct (c =? OPT_FOREGROUND); [apply IH|].
  destruct (c =? OPT_NOFORK); [apply IH|].
  cbn. sys_next. destruct r. right. split; [reflexivity|].
  now eexists [], _, _.
Qed.

(** The option loop returns 0 only on "--debug help", after listing the
    facilities. *)
Lemma option_loop_help (parsed : list (Z * string)) (g : globals) (l : L) :
  let o := exec sys (option_loop parsed g) l in
  boot_finish o = Ended (Return 0) ->
  In (OPT_DEBUG, "help") parsed /\
  exists before,
    boot_trace o
    = (before ++ [Sys (printf ("Supported debug facilities:" ++ LF) []) tt;
                  Sys (ni_debug_help stdout) tt])%list.
Proof.
  cbv zeta. revert g l.
  induction parsed as [|[c optarg] rest IH]; intros g l; cbn; [discriminate|].
  destruct (c =? EOF); [discriminate|].
  destruct (c =? OPT_CONFIGFILE).
  { cbn. sys_next. destruct r. intros H.
    apply IH in H as [Hin [before Ht]]. split; [now right|].
    exists (Sys (ni_set_global_config_path optarg) tt :: before).
    now rewrite Ht. }
  destruct (c =? OPT_DEBUG) eqn:Hd.
  { apply Z.eqb_eq in Hd. subst c.
    destruct (String.eqb optarg "help") eqn:Hhelp; cbn.
    - apply String.eqb_eq in Hhelp. subst optarg.
      do 2 sys_next. destruct r, r0. intros _. split; [now left|].
      now exists [].
    - sys_next. destruct (r <? 0); cbn; [sys_next; discriminate|].
      intros H. apply IH in H as [Hin [before Ht]]. split; [now right|].
      exists (Sys (ni_enable_debug optarg) r :: before). now rewrite Ht. }
  destruct (c =? OPT_FOREGROUND).
  { intros H. apply IH in H as [Hin Ht]. split; [now right|exact Ht]. }
  destruct (c =? OPT_NOFORK).
  { intros H. apply IH in H as [Hin Ht]. split; [now right|exact Ht]. }
  cbn. sys_next. discriminate.
Qed.

(** A code that is none of the four options stops the loop at the
    latest. *)
Lemma option_loop_rejects (parsed : list (Z * string)) (g : globals) (l : L)
    (c : Z) :
  In c (codes parsed) ->
  ~ In c [OPT_CONFIGFILE; OPT_DEBUG; OPT_FOREGROUND; OPT_NOFORK] ->
  exists e, boot_finish (exec sys (option_loop parsed g) l) = Ended e.
Proof.
  intros Hin Hbad. revert g l Hin.
  induction parsed as [|[c' optarg] rest IH]; intros g l; cbn; [intros []|].
  destruct (c' =? EOF); [intros []|]. intros [->|Hin].
  - destruct (c =? OPT_CONFIGFILE) eqn:H0;
      [apply Z.eqb_eq in H0; subst c; exfalso; apply Hbad; cbn; auto|].
    destruct (c =? OPT_DEBUG) eqn:H1;
      [apply Z.eqb_eq in H1; subst c; exfalso; apply Hbad; cbn; auto|].
    destruct (c =? OPT_FOREGROUND) eqn:H2;
      [apply Z.eqb_eq in H2; subst c; exfalso; apply Hbad; cbn; auto|].
    destruct (c =? OPT_NOFORK) eqn:H3;
      [apply Z.eqb_eq in H3; subst c; exfalso; apply Hbad; cbn; auto|].
    cbn. sys_next. eauto.
  - destruct (c' =? OPT_CONFIGFILE); [cbn; sys_next; now apply IH|].
    destruct (c' =? OPT_DEBUG).
    { destruct (String.eqb optarg "help"); cbn.
      - do 2 sys_next. eauto.
      - sys_next. destruct (r <? 0); cbn; [sys_next; eauto|now apply IH]. }
    destruct (c' =? OPT_FOREGROUND); [now apply IH|].
    destruct (c' =? OPT_NOFORK); [now apply IH|].
    cbn. sys_next. eauto.
Qed.

(** The wait loop's shapes: still serving with the flags it was given,
    or ended by [ni_fatal] right after the first negative result. *)
Lemma wait_shape_cases (g : globals) (n : nat) (rvs : list Z) :
  (fst (wait_shape g n rvs) = Ended (Serving g) /\
   snd (wait_shape g n rvs)
   = map (fun rv => Sys (ni_socket_wait (-1)) rv) (firstn n rvs) /\
   Forall (fun rv => 0 <= rv) (firstn n rvs)) \/
  (fst (wait_shape g n rvs) = Ended Fatal /\
   exists (good : list Z) (rv : Z),
     snd (wait_shape g n rvs)
     = (map (fun rv => Sys (ni_socket_wait (-1)) rv) good ++
        [Sys (ni_socket_wait (-1)) rv;
         Sys (ni_fatal "ni_socket_wait failed") tt])%list /\
     Forall (fun rv => 0 <= rv) good /\ rv < 0 /\
     (length good < n)%nat).
Proof.
  revert rvs. induction n as [|n IH]; intros rvs.
  - left. cbn. auto.
  - destruct rvs as [|rv rvs]; [left; cbn; auto|].
    cbn. destruct (rv <? 0) eqn:Hrv.
    + right. split; [reflexivity|]. exists [], rv. cbn.
      apply Z.ltb_lt in Hrv. repeat split; auto. lia.
    + apply Z.ltb_ge in Hrv.
      destruct (IH rvs) as [(Hf & Ht & Hall)|(Hf & good & bad & Ht & Hall & Hbad & Hlen)];
        destruct (wait_shape g n rvs) as [f tr]; cbn in *; subst f tr.
      * left. repeat split; auto.
      * right. split; [reflexivity|]. exists (rv :: good), bad. cbn.
        repeat split; auto. lia.
Qed.

End Startup.

Section MainProperties.

Context {L : Type} (sys : system L).

Local Abbreviation g0 := {| opt_foreground := 0; opt_nofork := 0 |}.

(** The waits write nothing, open nothing and initialise nothing. *)
Lemma wait_shape_quiet (g : globals) (n : nat) (rvs : list Z) :
  stderr_lines (snd (wait_shape g n rvs)) = [] /\
  sockets (snd (wait_shape g n rvs)) = [] /\
  init_results (snd (wait_shape g n rvs)) = [] /\
  asked is_background (snd (wait_shape g n rvs)) = false /\
  background_results (snd (wait_shape g n rvs)) = [].
Proof.
  revert rvs. induction n as [|n IH]; intros [|rv rvs]; cbn; auto 6.
  destruct (rv <? 0); cbn; auto 6.
  specialize (IH rvs). destruct (wait_shape g n rvs). exact IH.
Qed.

(** What the waits returned, read back from a wait shape. *)
Lemma wait_shape_results (g : globals) (n : nat) (rvs : list Z) :
  wait_results (snd (wait_shape g n rvs)) = [] \/
  fst (wait_shape g n rvs) = Ended Fatal \/
  (fst (wait_shape g n rvs) = Ended (Serving g) /\
   Forall (fun rv => 0 <= rv) (wait_results (snd (wait_shape g n rvs)))).
Proof.
  destruct (wait_shape_cases g n rvs) as [(Hf & Ht & Hall)|(Hf & _)];
    [right; right|now right; left].
  split; [exact Hf|]. rewrite Ht. unfold wait_results.
  generalize dependent (firstn n rvs). intros good _ Hall.
  induction Hall; cbn; constructor; auto.
Qed.

(** Unfold a [startup_shape] into its cases. *)
Ltac shape_cases g n rvs :=
  unfold startup_shape;
  let Hw := fresh "Hw" in
  let Hq := fresh "Hq" in
  pose proof (wait_shape_cases g n rvs) as Hw;
  pose proof (wait_shape_quiet g n rvs) as Hq;
  destruct (wait_shape g n rvs) as [?f ?waits];
  repeat match goal with
         | |- context [if ?b then _ else _] => destruct b eqn:?
         end;
  cbn [fst snd] in *.

(** [main] is still serving only if its option loop ran to the end, and
    then with the flags the loop left. *)
Lemma main_serving (parsed : list (Z * string)) (optind argc : Z) (n : nat)
    (l : L) (g : globals) :
  boot_finish (exec sys (main parsed optind argc n) l) = Ended (Serving g) ->
  boot_finish (exec sys (option_loop parsed g0) l) = Value g.
Proof.
  intros Hb. pose proof (main_shape sys parsed optind argc n l) as Hs.
  cbv zeta in Hs.
  destruct (boot_finish (exec sys (option_loop parsed g0) l)) as [e|g'] eqn:Ho.
  - destruct Hs as [Hf _]. rewrite Hf in Hb. injection Hb as ->.
    apply option_loop_endings in Ho as [Ho|Ho]; discriminate.
  - destruct Hs as (init_rv & sock & events_rv & background_rv & rvs
                    & Hlen & Hs).
    injection Hs as Hf Ht. rewrite Hf in Hb. clear Hf Ht.
    revert Hb. shape_cases g' n rvs; intros Hb; try discriminate.
    all: destruct Hw as [(Hf & _)|(Hf & _)]; rewrite Hf in Hb;
         congruence.
Qed.

(** X9.  While the daemon serves, each flag is 1 if its option was on the
    command line and 0 if not: nothing else sets a flag and nothing clears
    one. *)
Theorem serving_flags (parsed : list (Z * string)) (optind argc : Z)
    (n : nat) (l : L) (g : globals) :
  boot_finish (exec sys (main parsed optind argc n) l) = Ended (Serving g) ->
  opt_foreground g
  = (if existsb (Z.eqb OPT_FOREGROUND) (codes parsed) then 1 else 0) /\
  opt_nofork g
  = (if existsb (Z.eqb OPT_NOFORK) (codes parsed) then 1 else 0).
Proof.
  intros Hb. apply main_serving in Hb.
  exact (option_loop_flags sys parsed g0 g l Hb).
Qed.

(** X10.  An option that is none of the four never gets the daemon started:
    whatever else is on the command line, [main] returns 0 or 1 without
    calling [ni_init], opening a socket or waiting. *)
Theorem unknown_option_never_starts (parsed : list (Z * string))
    (optind argc : Z) (n : nat) (l : L) (c : Z) :
  In c (codes parsed) ->
  ~ In c [OPT_CONFIGFILE; OPT_DEBUG; OPT_FOREGROUND; OPT_NOFORK] ->
  let b := exec sys (main parsed optind argc n) l in
  (boot_finish b = Ended (Return 0) \/ boot_finish b = Ended (Return 1)) /\
  init_results (boot_trace b) = [] /\
  sockets (boot_trace b) = [] /\
  wait_results (boot_trace b) = [].
Proof.
  intros Hin Hbad. cbv zeta.
  destruct (option_loop_rejects sys parsed g0 l c Hin Hbad) as [e He].
  pose proof (main_shape sys parsed optind argc n l) as Hs.
  cbv zeta in Hs. rewrite He in Hs. destruct Hs as [Hf Ht].
  rewrite Hf, Ht.
  destruct (option_loop_silent sys parsed g0 l) as (Hi & Hsock & Hw & _).
  apply option_loop_endings in He as [-> | ->]; auto.
Qed.

(** X11.  [main] never comes to an end of its own: it returns 0 or 1, or dies
    in [ni_fatal], or faults, or is still serving.  It returns 0 only for
    "--debug help": then its last two steps list the debug facilities and
    [ni_init] was never called. *)
Theorem exit_status (parsed : list (Z * string)) (optind argc : Z) (n : nat)
    (l : L) :
  let b := exec sys (main parsed optind argc n) l in
  (exists e, boot_finish b = Ended e /\
             forall status, e = Return status -> status = 0 \/ status = 1) /\
  (boot_finish b = Ended (Return 0) ->
   In (OPT_DEBUG, "help") parsed /\
   init_results (boot_trace b) = [] /\
   exists before,
     boot_trace b
     = (before ++ [Sys (printf ("Supported debug facilities:" ++ LF) []) tt;
                   Sys (ni_debug_help stdout) tt])%list).
Proof.
  cbv zeta.
  pose proof (main_shape sys parsed optind argc n l) as Hs. cbv zeta in Hs.
  destruct (option_loop_silent sys parsed g0 l) as (Hi & _).
  destruct (boot_finish (exec sys (option_loop parsed g0) l)) as [e|g] eqn:Ho.
  - destruct Hs as [Hf Ht]. rewrite Hf, Ht. split.
    + exists e. split; [reflexivity|]. intros status ->.
      apply option_loop_endings in Ho as [[= ->]|[= ->]]; auto.
    + intros [= ->]. apply option_loop_help in Ho as [Hin Hb]. auto.
  - destruct Hs as (init_rv & sock & events_rv & background_rv & rvs
                    & Hlen & Hs).
    injection Hs as Hf Ht. rewrite Hf. clear Hf Ht.
    shape_cases g n rvs.
    all: destruct Hw as [(-> & _)|(-> & _)].
    all: split; [eexists; split; [reflexivity|]|]; try discriminate.
    all: intros status [= <-]; auto.
Qed.

(** X12.  Whatever [main] itself writes to [stderr] is its last word: it
    writes there at most once, as its last step, and returns 1; by then it
    has opened no socket. *)
Theorem stderr_then_status_1 (parsed : list (Z * string)) (optind argc : Z)
    (n : nat) (l : L) (line : string * list fmt_arg) :
  let b := exec sys (main parsed optind argc n) l in
  In line (stderr_lines (boot_trace b)) ->
  boot_finish b = Ended (Return 1) /\
  stderr_lines (boot_trace b) = [line] /\
  sockets (boot_trace b) = [] /\
  exists before,
    boot_trace b
    = (before ++ [Sys (fprintf stderr (fst line) (snd line)) tt])%list.
Proof.
  cbv zeta.
  pose proof (main_shape sys parsed optind argc n l) as Hs. cbv zeta in Hs.
  destruct (option_loop_silent sys parsed g0 l) as (_ & Hsock & _).
  pose proof (option_loop_stderr sys parsed g0 l) as He. cbv zeta in He.
  destruct (boot_finish (exec sys (option_loop parsed g0) l)) as [e|g] eqn:Ho.
  - destruct Hs as [Hf Ht]. rewrite Hf, Ht. intros Hin.
    destruct He as [He|(He & before & fmt & args & Htr & Hl)].
    { rewrite He in Hin. destruct Hin. }
    rewrite Hl in Hin. destruct Hin as [<-|[]].
    injection He as ->. repeat split; auto. now exists before.
  - destruct He as [He|(He & _)]; [|discriminate].
    destruct Hs as (init_rv & sock & events_rv & background_rv & rvs
                    & Hlen & Hs).
    injection Hs as Hf Ht. rewrite Hf, Ht. clear Hf Ht.
    unfold stderr_lines, sockets in *. rewrite !omap_app, He, Hsock.
    shape_cases g n rvs; destruct Hq as (Hq1 & Hq2 & _);
      unfold stderr_lines, sockets in *;
      rewrite ?omap_app; cbn; rewrite ?Hq1, ?Hq2; cbn;
      intros Hin; try contradiction.
    destruct Hin as [<-|[]]. repeat split. cbn.
    exists (boot_trace (exec sys (option_loop parsed g0) l)
            ++ [Sys ni_init init_rv])%list.
    now rewrite <- app_assoc.
Qed.

(** X13.  Once the options are read, [ni_init] comes first.  If it fails,
    [main] returns 1 at once and in silence; if it succeeds but arguments
    are left on the command line, [main] prints the usage and returns 1.
    Either way no socket was opened. *)
Theorem init_before_arguments (parsed : list (Z * string)) (optind argc : Z)
    (n : nat) (l : L) (rv : Z) :
  let b := exec sys (main parsed optind argc n) l in
  In rv (init_results (boot_trace b)) ->
  init_results (boot_trace b) = [rv] /\
  (rv < 0 ->
   boot_finish b = Ended (Return 1) /\
   stderr_lines (boot_trace b) = [] /\
   sockets (boot_trace b) = [] /\
   exists before, boot_trace b = (before ++ [Sys ni_init rv])%list) /\
  (0 <= rv -> optind <> argc ->
   boot_finish b = Ended (Return 1) /\
   sockets (boot_trace b) = [] /\
   exists before,
     boot_trace b
     = (before ++ [Sys ni_init rv;
                   Sys (fprintf stderr usage_text []) tt])%list).
Proof.
  cbv zeta.
  pose proof (main_shape sys parsed optind argc n l) as Hs. cbv zeta in Hs.
  destruct (option_loop_silent sys parsed g0 l) as (Hi & Hsock & _).
  pose proof (option_loop_stderr sys parsed g0 l) as He. cbv zeta in He.
  destruct (boot_finish (exec sys (option_loop parsed g0) l)) as [e|g] eqn:Ho.
  { destruct Hs as [Hf Ht]. rewrite Ht, Hi. intros []. }
  destruct He as [He|(He & _)]; [|discriminate].
  destruct Hs as (init_rv & sock & events_rv & background_rv & rvs
                  & Hlen & Hs).
  injection Hs as Hf Ht. rewrite Hf, Ht. clear Hf Ht.
  unfold init_results, stderr_lines, sockets in *.
  rewrite !omap_app, Hi, He, Hsock.
  shape_cases g n rvs; destruct Hq as (Hq1 & Hq2 & Hq3 & _);
    unfold init_results, stderr_lines, sockets in *;
    rewrite ?omap_app; cbn; rewrite ?Hq1, ?Hq2, ?Hq3; cbn;
    intros [<-|[]]; (split; [reflexivity|]).
  all: repeat match goal with
              | H : (_ <? _) = true |- _ => apply Z.ltb_lt in H
              | H : (_ <? _) = false |- _ => apply Z.ltb_ge in H
              | H : negb (_ =? _) = true |- _ =>
                  apply negb_true_iff, Z.eqb_neq in H
              | H : negb (_ =? _) = false |- _ =>
                  apply negb_false_iff, Z.eqb_eq in H
              end.
  all: split; [intros Hneg|intros Hpos Hargs]; try lia; try contradiction.
  - repeat split. now eexists.
  - repeat split. now eexists.
Qed.

(** X14.  A wait is reached only through a successful start: before the first
    [ni_socket_wait], [ni_init] has succeeded, no argument was left over,
    the listening socket is not [NULL] (which is all line 106 and line 108
    together make sure of) and has [wicked_accept_connection] as its accept
    function, and the event listener is registered with
    [wicked_interface_event]. *)
Theorem callbacks_before_wait (parsed : list (Z * string)) (optind argc : Z)
    (n : nat) (l : L) (rv : Z) :
  let b := exec sys (main parsed optind argc n) l in
  In rv (wait_results (boot_trace b)) ->
  optind = argc /\
  exists before init_rv sock events_rv after,
    boot_trace b
    = (before ++
       [Sys ni_init init_rv; Sys ni_server_listen sock;
        Sys (set_accept sock accept_callback) tt;
        Sys (ni_server_listen_events event_callback) events_rv] ++
       after)%list /\
    wait_results before = [] /\
    0 <= init_rv /\ sock <> NULL /\ 0 <= events_rv.
Proof.
  cbv zeta.
  pose proof (main_shape sys parsed optind argc n l) as Hs. cbv zeta in Hs.
  destruct (option_loop_silent sys parsed g0 l) as (_ & _ & Hwait & _).
  destruct (boot_finish (exec sys (option_loop parsed g0) l)) as [e|g] eqn:Ho.
  { destruct Hs as [Hf Ht]. rewrite Ht, Hwait. intros []. }
  destruct Hs as (init_rv & sock & events_rv & background_rv & rvs
                  & Hlen & Hs).
  injection Hs as Hf Ht. rewrite Ht. clear Hf Ht.
  unfold wait_results in *. rewrite omap_app, Hwait.
  shape_cases g n rvs; cbn; try (intros []).
  all: repeat match goal with
              | H : (_ <? _) = false |- _ => apply Z.ltb_ge in H
              | H : negb (_ =? _) = false |- _ =>
                  apply negb_false_iff, Z.eqb_eq in H
              | H : (_ =? NULL) = false |- _ => apply Z.eqb_neq in H
              end.
  all: intros _; split; [assumption|].
  all: eexists _, init_rv, sock, events_rv, _.
  all: (split; [reflexivity|]); split; [exact Hwait|].
  all: repeat split; assumption.
Qed.

Lemma existsb_code (c : Z) (cs : list Z) :
  existsb (Z.eqb c) cs = true <-> In c cs.
Proof.
  rewrite existsb_exists. split.
  - intros (x & Hin & Heq). apply Z.eqb_eq in Heq. now subst x.
  - intros Hin. exists c. split; [exact Hin|apply Z.eqb_refl].
Qed.

(** X15.  With "--foreground" on the command line the daemon never detaches
    and never moves its log to syslog, however the run goes. *)
Theorem foreground_stays_attached (parsed : list (Z * string))
    (optind argc : Z) (n : nat) (l : L) :
  In OPT_FOREGROUND (codes parsed) ->
  asked is_background (boot_trace (exec sys (main parsed optind argc n) l))
  = false.
Proof.
  intros Hfg.
  pose proof (main_shape sys parsed optind argc n l) as Hs. cbv zeta in Hs.
  destruct (option_loop_quiet sys parsed g0 l) as (_ & _ & Hbg & _).
  destruct (boot_finish (exec sys (option_loop parsed g0) l)) as [e|g] eqn:Ho.
  { destruct Hs as [Hf Ht]. now rewrite Ht. }
  apply option_loop_flags in Ho as [Hflag _].
  apply existsb_code in Hfg. rewrite Hfg in Hflag.
  destruct Hs as (init_rv & sock & events_rv & background_rv & rvs
                  & Hlen & Hs).
  injection Hs as Hf Ht. rewrite Ht. clear Hf Ht.
  rewrite asked_app, Hbg.
  shape_cases g n rvs; destruct Hq as (_ & _ & _ & Hq & _);
    rewrite ?asked_app, ?Hq; try reflexivity.
  all: rewrite Hflag in *; discriminate.
Qed.

(** X16.  Without "--foreground" a wait is reached only after
    [ni_server_background] has succeeded and the log has gone to syslog as
    "wickedd"; if [ni_server_background] fails, [main] returns 1 in
    silence, having waited for nothing. *)
Theorem background_before_wait (parsed : list (Z * string))
    (optind argc : Z) (n : nat) (l : L) :
  ~ In OPT_FOREGROUND (codes parsed) ->
  let b := exec sys (main parsed optind argc n) l in
  (wait_results (boot_trace b) <> [] ->
   exists before rv after,
     boot_trace b
     = (before ++
        [Sys ni_server_background rv;
         Sys (ni_log_destination_syslog "wickedd") tt] ++ after)%list /\
     0 <= rv /\ wait_results before = []) /\
  (forall rv, In rv (background_results (boot_trace b)) -> rv < 0 ->
     boot_finish b = Ended (Return 1) /\
     stderr_lines (boot_trace b) = [] /\
     wait_results (boot_trace b) = []).
Proof.
  intros Hfg. cbv zeta.
  pose proof (main_shape sys parsed optind argc n l) as Hs. cbv zeta in Hs.
  destruct (option_loop_silent sys parsed g0 l) as (_ & _ & Hwait & _).
  destruct (option_loop_quiet sys parsed g0 l) as (_ & _ & Hbg & _).
  pose proof (option_loop_stderr sys parsed g0 l) as He. cbv zeta in He.
  assert (Hbgr : background_results
                   (boot_trace (exec sys (option_loop parsed g0) l)) = []).
  { revert Hbg. generalize (boot_trace (exec sys (option_loop parsed g0) l)).
    intros tr. induction tr as [|[c r] tr IH]; [reflexivity|].
    cbn. destruct c; cbn; try discriminate; intros H; auto. }
  destruct (boot_finish (exec sys (option_loop parsed g0) l)) as [e|g] eqn:Ho.
  { destruct Hs as [Hf Ht]. rewrite Ht, Hwait, Hbgr.
    split; [congruence|intros rv []]. }
  destruct He as [He|(He & _)]; [|discriminate].
  apply option_loop_flags in Ho as [Hflag _].
  destruct (existsb (Z.eqb OPT_FOREGROUND) (codes parsed)) eqn:Hex;
    [apply existsb_code in Hex; contradiction|].
  cbn in Hflag.
  destruct Hs as (init_rv & sock & events_rv & background_rv & rvs
                  & Hlen & Hs).
  injection Hs as Hf Ht. rewrite Hf, Ht. clear Hf Ht.
  unfold wait_results, background_results, stderr_lines in *.
  rewrite !omap_app, Hwait, Hbgr, He.
  shape_cases g n rvs; destruct Hq as (Hq1 & _ & _ & _ & Hq5);
    unfold wait_results, background_results, stderr_lines in *;
    rewrite ?omap_app; cbn; rewrite ?Hq1, ?Hq5; cbn.
  all: try (rewrite Hflag in *; discriminate).
  all: repeat match goal with
              | H : (_ <? _) = true |- _ => apply Z.ltb_lt in H
              | H : (_ <? _) = false |- _ => apply Z.ltb_ge in H
              end.
  all: split; [intros Hw'; try congruence|intros rv Hin Hrv;
               try contradiction].
  all: try (destruct Hin as [<-|[]]; try lia; auto).
  exists (boot_trace (exec sys (option_loop parsed g0) l) ++
          [Sys ni_init init_rv; Sys ni_server_listen sock;
           Sys (set_accept sock accept_callback) tt;
           Sys (ni_server_listen_events event_callback) events_rv])%list,
         background_rv, waits.
  split; [|split; [assumption|]].
  - now rewrite <- app_assoc.
  - rewrite omap_app, Hwait. reflexivity.
Qed.

(** X17.  The first wait that fails ends the daemon: it is followed by
    [ni_fatal] and by nothing else, and every wait before it succeeded.
    All waits are made without timeout. *)
Theorem wait_failure_is_fatal (parsed : list (Z * string))
    (optind argc : Z) (n : nat) (l : L) (rv : Z) :
  let b := exec sys (main parsed optind argc n) l in
  In rv (wait_results (boot_trace b)) -> rv < 0 ->
  boot_finish b = Ended Fatal /\
  exists before,
    boot_trace b
    = (before ++ [Sys (ni_socket_wait (-1)) rv;
                  Sys (ni_fatal "ni_socket_wait failed") tt])%list /\
    Forall (fun rv' => 0 <= rv') (wait_results before).
Proof.
  cbv zeta.
  pose proof (main_shape sys parsed optind argc n l) as Hs. cbv zeta in Hs.
  destruct (option_loop_silent sys parsed g0 l) as (_ & _ & Hwait & _).
  destruct (boot_finish (exec sys (option_loop parsed g0) l)) as [e|g] eqn:Ho.
  { destruct Hs as [Hf Ht]. rewrite Ht, Hwait. intros []. }
  destruct Hs as (init_rv & sock & events_rv & background_rv & rvs
                  & Hlen & Hs).
  injection Hs as Hf Ht. rewrite Hf, Ht. clear Hf Ht.
  assert (Hmap : forall good : list Z,
             omap wait_result
               (map (fun rv => Sys (ni_socket_wait (-1)) rv) good) = good).
  { induction good as [|x good IH]; cbn; [reflexivity|].
    f_equal. exact IH. }
  unfold wait_results in *. rewrite omap_app, Hwait.
  shape_cases g n rvs; cbn; try (intros []).
  all: destruct Hw as [(-> & -> & Hall)|(-> & good & bad & -> & Hall & Hbad
                                         & Hgood)];
       rewrite ?omap_app, ?Hmap; cbn.
  all: intros Hin Hrv.
  all: try (exfalso; rewrite Forall_forall in Hall;
            apply list_elem_of_In, Hall in Hin; lia).
  all: apply in_app_or in Hin as [Hin|[<-|[]]];
       try (exfalso; rewrite Forall_forall in Hall;
            apply list_elem_of_In, Hall in Hin; lia).
  all: split; [reflexivity|].
  all: eexists; split;
       [rewrite !app_comm_cons, app_assoc; reflexivity|].
  all: rewrite ?omap_app, Hwait, ?Hmap; cbn; rewrite ?Hmap; exact Hall.
Qed.

(** X18.  If [ni_server_listen] returns [NULL], the test of line 106 does not
    catch it: [ni_fatal] is not called, no callback is registered, and the
    run ends at line 108, in the store through the null pointer. *)
Theorem null_socket_not_caught (parsed : list (Z * string))
    (optind argc : Z) (n : nat) (l : L) :
  let b := exec sys (main parsed optind argc n) l in
  In NULL (sockets (boot_trace b)) ->
  boot_finish b = Ended Fault /\
  fatal_messages (boot_trace b) = [] /\
  wait_results (boot_trace b) = [] /\
  exists before,
    boot_trace b = (before ++ [Sys ni_server_listen NULL])%list.
Proof.
  cbv zeta.
  pose proof (main_shape sys parsed optind argc n l) as Hs. cbv zeta in Hs.
  destruct (option_loop_silent sys parsed g0 l)
    as (_ & Hsock & Hwait & Hfatal).
  destruct (boot_finish (exec sys (option_loop parsed g0) l)) as [e|g] eqn:Ho.
  { destruct Hs as [Hf Ht]. rewrite Ht, Hsock. intros []. }
  destruct Hs as (init_rv & sock & events_rv & background_rv & rvs
                  & Hlen & Hs).
  injection Hs as Hf Ht. rewrite Hf, Ht. clear Hf Ht.
  unfold sockets, fatal_messages, wait_results in *.
  rewrite !omap_app, Hsock, Hwait, Hfatal.
  shape_cases g n rvs; destruct Hq as (_ & Hq2 & _);
    unfold sockets in Hq2; rewrite ?omap_app; cbn; rewrite ?Hq2;
    intros Hin; try contradiction.
  all: destruct Hin as [Hnull|[]]; subst sock; try discriminate.
  repeat split.
  exists (boot_trace (exec sys (option_loop parsed g0) l)
          ++ [Sys ni_init init_rv])%list.
  now rewrite <- app_assoc.
Qed.

(** While [main] is still serving after [n] iterations of its loop, it
    has waited [n] times and every wait succeeded. *)
Lemma serving_after_waits (parsed : list (Z * string)) (optind argc : Z)
    (n : nat) (l : L) (g : globals) :
  let b := exec sys (main parsed optind argc n) l in
  boot_finish b = Ended (Serving g) ->
  length (wait_results (boot_trace b)) = n /\
  Forall (fun rv => 0 <= rv) (wait_results (boot_trace b)) /\
  fatal_messages (boot_trace b) = [].
Proof.
  cbv zeta.
  pose proof (main_shape sys parsed optind argc n l) as Hs. cbv zeta in Hs.
  destruct (option_loop_silent sys parsed g0 l) as (_ & _ & Hwait & Hfatal).
  destruct (boot_finish (exec sys (option_loop parsed g0) l)) as [e|g'] eqn:Ho.
  { destruct Hs as [Hf Ht]. rewrite Hf. intros [= ->].
    apply option_loop_endings in Ho as [Ho|Ho]; discriminate. }
  destruct Hs as (init_rv & sock & events_rv & background_rv & rvs
                  & Hlen & Hs).
  injection Hs as Hf Ht. rewrite Hf, Ht. clear Hf Ht.
  assert (Hmap : forall good : list Z,
             omap wait_result
               (map (fun rv => Sys (ni_socket_wait (-1)) rv) good) = good).
  { induction good as [|x good IH]; cbn; [reflexivity|].
    f_equal. exact IH. }
  assert (Hnone : forall good : list Z,
             omap fatal_message
               (map (fun rv => Sys (ni_socket_wait (-1)) rv) good) = []).
  { induction good as [|x good IH]; cbn; [reflexivity|exact IH]. }
  unfold wait_results, fatal_messages in *.
  rewrite !omap_app, Hwait, Hfatal.
  shape_cases g' n rvs; intros Hserving; try discriminate.
  all: destruct Hw as [(-> & -> & Hall)|(-> & _)]; [|discriminate].
  all: rewrite ?omap_app, ?Hmap, ?Hnone; cbn; rewrite ?Hmap, ?Hnone.
  all: rewrite firstn_all2 in * by lia.
  all: auto.
Qed.

(** With plain options the loop runs to its end when no debug facility
    is refused. *)
Lemma option_loop_passes (parsed : list (Z * string)) (g : globals) (l : L) :
  never_fails sys -> Forall plain_option parsed ->
  exists g', boot_finish (exec sys (option_loop parsed g) l) = Value g'.
Proof.
  intros Hsys Hplain. revert g l.
  induction Hplain as [|[c optarg] rest Hc Hrest IH]; intros g l; cbn;
    [eauto|].
  destruct (c =? EOF); [eauto|].
  destruct (c =? OPT_CONFIGFILE) eqn:H0; [cbn; sys_next; apply IH|].
  destruct (c =? OPT_DEBUG) eqn:Hd.
  { apply Z.eqb_eq in Hd. subst c.
    destruct (String.eqb optarg "help") eqn:Hhelp.
    - apply String.eqb_eq in Hhelp.
      destruct Hc as [Hc|[[_ Hc]|[Hc|Hc]]]; cbn in Hc; try discriminate.
      contradiction.
    - cbn. destruct (Hsys l) as (Hdebug & _). specialize (Hdebug optarg).
      sys_next. cbn in Hdebug.
      destruct (r <? 0) eqn:Hr; [apply Z.ltb_lt in Hr; lia|apply IH]. }
  destruct (c =? OPT_FOREGROUND) eqn:H2; [apply IH|].
  destruct (c =? OPT_NOFORK) eqn:H3; [apply IH|].
  exfalso. destruct Hc as [Hc|[[Hc _]|[Hc|Hc]]]; cbn in Hc; subst c;
    cbn in *; discriminate.
Qed.

Lemma wait_loop_serves (g : globals) (n : nat) (l : L) :
  never_fails sys ->
  boot_finish (exec sys (wait_loop g n) l) = Ended (Serving g).
Proof.
  intros Hsys. revert l. induction n as [|n IH]; intros l; [reflexivity|].
  cbn. destruct (Hsys l) as (_ & _ & _ & _ & _ & Hwait).
  specialize (Hwait (-1)). sys_next. cbn in Hwait.
  destruct (r <? 0) eqn:Hr; [apply Z.ltb_lt in Hr; lia|apply IH].
Qed.

(** X19.  The daemon does start: when the command line holds plain options
    only, with nothing left over, and no call fails, [main] gets to its
    loop and stays in it, for as many iterations as one looks at, having
    waited that many times. *)
Theorem daemon_starts (parsed : list (Z * string)) (argc : Z) (n : nat)
    (l : L) :
  never_fails sys -> Forall plain_option parsed ->
  let b := exec sys (main parsed argc argc n) l in
  (exists g, boot_finish b = Ended (Serving g)) /\
  length (wait_results (boot_trace b)) = n /\
  stderr_lines (boot_trace b) = [] /\
  fatal_messages (boot_trace b) = [].
Proof.
  intros Hsys Hplain. cbv zeta.
  assert (Hserving : exists g,
             boot_finish (exec sys (main parsed argc argc n) l)
             = Ended (Serving g)).
  { destruct (option_loop_passes parsed g0 l Hsys Hplain) as [g Hg].
    exists g. unfold main. rewrite exec_bind, Hg. cbn.
    destruct (Hsys (boot_final (exec sys (option_loop parsed g0) l)))
      as (_ & Hinit & _).
    sys_next. cbn in Hinit.
    destruct (r <? 0) eqn:Hr; [apply Z.ltb_lt in Hr; lia|].
    rewrite Z.eqb_refl. cbn.
    destruct (Hsys l0) as (_ & _ & Hsock & _).
    sys_next. cbn in Hsock. rewrite ptr_ltb_null.
    destruct (r0 =? NULL) eqn:Hnull;
      [apply Z.eqb_eq in Hnull; unfold NULL in Hnull; lia|].
    cbn. sys_next.
    destruct (Hsys l2) as (_ & _ & _ & Hevents & _).
    specialize (Hevents event_callback). sys_next. cbn in Hevents.
    destruct (r2 <? 0) eqn:Hr2; [apply Z.ltb_lt in Hr2; lia|].
    destruct (opt_foreground g =? 0); cbn.
    - destruct (Hsys l3) as (_ & _ & _ & _ & Hbg & _).
      sys_next. cbn in Hbg.
      destruct (r3 <? 0) eqn:Hr3; [apply Z.ltb_lt in Hr3; lia|].
      cbn. sys_next. now apply wait_loop_serves.
    - now apply wait_loop_serves. }
  split; [exact Hserving|].
  destruct Hserving as [g Hg].
  destruct (serving_after_waits parsed argc argc n l g Hg)
    as (Hlen & _ & Hfatal).
  split; [exact Hlen|]. split; [|exact Hfatal].
  destruct (stderr_lines (boot_trace (exec sys (main parsed argc argc n) l)))
    as [|line lines] eqn:Hlines; [reflexivity|].
  exfalso.
  pose proof (main_shape sys parsed argc argc n l) as Hs. cbv zeta in Hs.
  pose proof (option_loop_stderr sys parsed g0 l) as He. cbv zeta in He.
  destruct (boot_finish (exec sys (option_loop parsed g0) l)) as [e|g'] eqn:Ho.
  { destruct Hs as [Hf _]. rewrite Hf in Hg. injection Hg as ->.
    apply option_loop_endings in Ho as [Ho|Ho]; discriminate. }
  destruct He as [He|(He & _)]; [|discriminate].
  destruct Hs as (init_rv & sock & events_rv & background_rv & rvs
                  & Hrvs & Hs).
  injection Hs as Hf Ht. rewrite Hf in Hg. rewrite Ht in Hlines.
  clear Hf Ht. revert Hg Hlines.
  unfold stderr_lines in *. rewrite omap_app, He.
  shape_cases g' n rvs; destruct Hq as (Hq1 & _);
    unfold stderr_lines in *; rewrite ?omap_app; cbn; rewrite ?Hq1;
    intros Hg Hlines; try discriminate.
Qed.

End MainProperties.

(** ** [main] and the acceptor together *)

Section Modes.

Context {R L W : Type} (lib : library R L) (sys : system W).

(** X20.  The mode of the acceptor is the command line's: once [main] serves,
    a connection from uid 0 is handled in the daemon's own process, with no
    [fork] at all, if "--no-fork" was given, and reaches exactly one [fork]
    if it was not. *)
Theorem no_fork_option_decides (parsed : list (Z * string))
    (optind argc : Z) (n : nat) (w : W) (g : globals)
    (sock : ptr) (gid : N) (l : L) :
  boot_finish (exec sys (main parsed optind argc n) w) = Ended (Serving g) ->
  let e := run lib (wicked_accept_connection (opt_nofork g) sock 0 gid) l in
  (In OPT_NOFORK (codes parsed) ->
   forks (proc_trace (parent e)) = [] /\ children e = [] /\
   length (responses (proc_trace (parent e))) = 1%nat) /\
  (~ In OPT_NOFORK (codes parsed) ->
   length (forks (proc_trace (parent e))) = 1%nat /\
   responses (proc_trace (parent e)) = []).
Proof.
  intros Hb. apply main_serving in Hb.
  apply option_loop_flags in Hb as [_ Hflag]. cbn in Hflag.
  cbv zeta. split; intros Hopt.
  - apply existsb_code in Hopt. rewrite Hopt in Hflag. rewrite Hflag.
    unfold wicked_accept_connection, wicked_process_network_restcall.
    all_paths; repeat split.
  - destruct (existsb (Z.eqb OPT_NOFORK) (codes parsed)) eqn:Hex;
      [apply existsb_code in Hex; contradiction|].
    rewrite Hflag.
    unfold wicked_accept_connection, wicked_process_network_restcall.
    all_paths; repeat split.
Qed.

End Modes.

(** * The further theorems at work *)

Lemma steady_never_fails : never_fails steady_system.
Proof. intros []. cbn. repeat split; intros; lia. Defined.

(** "--no-fork": one process, the log line then the handler. *)
Lemma inline_mode_runs_handler_witness :
  1 <> 0 /\
  let accepted : call string :=
    ni_debug_wicked "accepted connection from uid=%u" [ArgU 0] in
  let l := Standin.start [] in
  let e := run Standin.lib (wicked_accept_connection 1 7 0 0) l in
  let h := run Standin.lib (wicked_process_network_restcall 7)
               (snd (respond Standin.lib accepted l)) in
  proc_trace (parent e) = Called accepted tt :: proc_trace (parent h) /\
  proc_final (parent e) = proc_final (parent h) /\
  forks (proc_trace (parent e)) = [] /\
  children e = [].
Proof.
  assert (H : 1 <> 0) by lia.
  split; [exact H|].
  exact (inline_mode_runs_handler Standin.lib 1 7 0 (Standin.start []) H).
Defined.

(** Scenario B in a worker: pid 42 handles the request and exits; the
    caller returns to whatever comes next, here nothing. *)
Lemma worker_runs_handler_only_witness :
  let accepted : call string :=
    ni_debug_wicked "accepted connection from uid=%u" [ArgU 0] in
  let l := Standin.start [] in
  let k : Z -> prog string unit := fun _ => Ret tt in
  let l1 := snd (respond Standin.lib accepted l) in
  fst (os_fork Standin.lib l1) = Some 42%positive /\
  let l2 := snd (os_fork Standin.lib l1) in
  let e := run Standin.lib (bind (wicked_accept_connection 0 7 0 0) k) l in
  let h := run Standin.lib (wicked_process_network_restcall 7) l2 in
  let later := run Standin.lib (k (-1)) l2 in
  proc_trace (parent e)
    = Called accepted tt :: Forked 42 :: proc_trace (parent later) /\
  proc_outcome (parent e) = proc_outcome (parent later) /\
  children e
    = (42%positive,
       {| proc_outcome := Exited 0;
          proc_trace := Forked 0 :: proc_trace (parent h);
          proc_final := proc_final (parent h) |})
        :: children later.
Proof.
  cbv zeta. split; [reflexivity|].
  exact (worker_runs_handler_only Standin.lib 7 0 (fun _ => Ret tt)
           42%positive (Standin.start []) eq_refl).
Defined.

(** Scenario D: ifdown is applied to node 512, the interface node. *)
Lemma policy_applied_to_snapshot_witness :
  let tr :=
    proc_trace (parent (run Standin.lib
                            (wicked_interface_event Standin.E 0 Standin.eth0 3)
                            (Standin.start Standin.two_policies))) in
  In (Standin.ifdown, 512) (applied tr) /\
  512 <> NULL /\
  exists (syntax evnode policies : ptr) (before after : list (step string)),
    tr = (before ++
          Called (ni_syntax_xml_from_interface syntax 0 Standin.eth0) 512
          :: Called (xml_node_replace_child evnode 512) tt
          :: Called ni_default_policies policies
          :: Called (ni_policy_match_event policies evnode)
                    (Some Standin.ifdown)
          :: after)%list /\
    In (Called (xml_node_new "event" NULL) evnode) before.
Proof.
  cbv zeta.
  assert (H : In (Standin.ifdown, 512)
                (applied
                   (proc_trace
                      (parent (run Standin.lib
                                 (wicked_interface_event Standin.E 0
                                    Standin.eth0 3)
                                 (Standin.start Standin.two_policies))))))
    by (vm_compute; left; reflexivity).
  split; [exact H|].
  exact (policy_applied_to_snapshot Standin.lib Standin.E 0 Standin.eth0 3
           (Standin.start Standin.two_policies) Standin.ifdown 512 H).
Defined.


(** wickedd --no-fork --config /etc/wicked.conf *)
Lemma serving_flags_witness :
  let parsed := [(OPT_NOFORK, ""); (OPT_CONFIGFILE, "/etc/wicked.conf")] in
  let g := {| opt_foreground := 0; opt_nofork := 1 |} in
  boot_finish (exec standin_system (main parsed 4 4 2) (healthy []))
  = Ended (Serving g) /\
  opt_foreground g
  = (if existsb (Z.eqb OPT_FOREGROUND) (codes parsed) then 1 else 0) /\
  opt_nofork g
  = (if existsb (Z.eqb OPT_NOFORK) (codes parsed) then 1 else 0).
Proof.
  cbv zeta. split; [reflexivity|].
  exact (serving_flags standin_system
           [(OPT_NOFORK, ""); (OPT_CONFIGFILE, "/etc/wicked.conf")] 4 4 2
           (healthy []) {| opt_foreground := 0; opt_nofork := 1 |} eq_refl).
Defined.

(** wickedd --foreground --bogus: [getopt_long] answers '?', 63. *)
Lemma unknown_option_never_starts_witness :
  let parsed := [(OPT_FOREGROUND, ""); (63, "")] in
  In 63 (codes parsed) /\
  ~ In 63 [OPT_CONFIGFILE; OPT_DEBUG; OPT_FOREGROUND; OPT_NOFORK] /\
  let b := exec standin_system (main parsed 3 3 2) (healthy []) in
  (boot_finish b = Ended (Return 0) \/ boot_finish b = Ended (Return 1)) /\
  init_results (boot_trace b) = [] /\
  sockets (boot_trace b) = [] /\
  wait_results (boot_trace b) = [].
Proof.
  cbv zeta.
  assert (Hin : In 63 (codes [(OPT_FOREGROUND, ""); (63, "")]))
    by (cbn; right; left; reflexivity).
  assert (Hbad : ~ In 63 [OPT_CONFIGFILE; OPT_DEBUG; OPT_FOREGROUND;
                         OPT_NOFORK])
    by (unfold OPT_CONFIGFILE, OPT_DEBUG, OPT_FOREGROUND, OPT_NOFORK; cbn;
        lia).
  split; [exact Hin|]. split; [exact Hbad|].
  exact (unknown_option_never_starts standin_system
           [(OPT_FOREGROUND, ""); (63, "")] 3 3 2 (healthy []) 63 Hin Hbad).
Defined.

(** wickedd --debug help *)
Lemma exit_status_witness :
  let parsed := [(OPT_DEBUG, "help"); (OPT_NOFORK, "")] in
  let b := exec standin_system (main parsed 4 4 2) (healthy []) in
  boot_finish b = Ended (Return 0) /\
  In (OPT_DEBUG, "help") parsed /\
  init_results (boot_trace b) = [] /\
  exists before,
    boot_trace b
    = (before ++ [Sys (printf ("Supported debug facilities:" ++ LF) []) tt;
                  Sys (ni_debug_help stdout) tt])%list.
Proof.
  cbv zeta. split; [reflexivity|].
  exact (proj2 (exit_status standin_system
                  [(OPT_DEBUG, "help"); (OPT_NOFORK, "")] 4 4 2 (healthy []))
               eq_refl).
Defined.

(** wickedd --debug nonsense: one line on [stderr], status 1. *)
Lemma stderr_then_status_1_witness :
  let parsed := [(OPT_DEBUG, "nonsense")] in
  let line :=
    ("Bad debug facility " ++ QUOTE ++ "%s" ++ QUOTE ++ LF,
     [ArgS "nonsense"]) in
  let b := exec standin_system (main parsed 3 3 2) (healthy []) in
  In line (stderr_lines (boot_trace b)) /\
  boot_finish b = Ended (Return 1) /\
  stderr_lines (boot_trace b) = [line] /\
  sockets (boot_trace b) = [] /\
  exists before,
    boot_trace b
    = (before ++ [Sys (fprintf stderr (fst line) (snd line)) tt])%list.
Proof.
  cbv zeta.
  assert (H : In ("Bad debug facility " ++ QUOTE ++ "%s" ++ QUOTE ++ LF,
                  [ArgS "nonsense"])
                (stderr_lines
                   (boot_trace
                      (exec standin_system
                         (main [(OPT_DEBUG, "nonsense")] 3 3 2)
                         (healthy [])))))
    by (vm_compute; left; reflexivity).
  split; [exact H|].
  exact (stderr_then_status_1 standin_system [(OPT_DEBUG, "nonsense")] 3 3 2
           (healthy []) _ H).
Defined.

(** wickedd extra: [ni_init] runs, then the usage. *)
Lemma init_before_arguments_witness :
  let b := exec standin_system (main [] 1 2 2) (healthy []) in
  In 0 (init_results (boot_trace b)) /\ 0 <= 0 /\ 1 <> 2 /\
  init_results (boot_trace b) = [0] /\
  boot_finish b = Ended (Return 1) /\
  sockets (boot_trace b) = [] /\
  exists before,
    boot_trace b
    = (before ++ [Sys ni_init 0;
                  Sys (fprintf stderr usage_text []) tt])%list.
Proof.
  cbv zeta.
  assert (H : In 0 (init_results
                      (boot_trace
                         (exec standin_system (main [] 1 2 2) (healthy [])))))
    by (vm_compute; left; reflexivity).
  assert (H0 : 0 <= 0) by lia.
  assert (H1 : 1 <> 2) by lia.
  split; [exact H|]. split; [exact H0|]. split; [exact H1|].
  destruct (init_before_arguments standin_system [] 1 2 2 (healthy []) 0 H)
    as (Honce & _ & Hleft).
  split; [exact Honce|]. exact (Hleft H0 H1).
Defined.

(** wickedd, one wait. *)
Lemma callbacks_before_wait_witness :
  let b := exec standin_system (main [] 1 1 1) (healthy []) in
  In 0 (wait_results (boot_trace b)) /\
  1 = 1 /\
  exists before init_rv sock events_rv after,
    boot_trace b
    = (before ++
       [Sys ni_init init_rv; Sys ni_server_listen sock;
        Sys (set_accept sock accept_callback) tt;
        Sys (ni_server_listen_events event_callback) events_rv] ++
       after)%list /\
    wait_results before = [] /\
    0 <= init_rv /\ sock <> NULL /\ 0 <= events_rv.
Proof.
  cbv zeta.
  assert (H : In 0 (wait_results
                      (boot_trace
                         (exec standin_system (main [] 1 1 1) (healthy [])))))
    by (vm_compute; left; reflexivity).
  split; [exact H|].
  exact (callbacks_before_wait standin_system [] 1 1 1 (healthy []) 0 H).
Defined.

(** wickedd --foreground *)
Lemma foreground_stays_attached_witness :
  In OPT_FOREGROUND (codes [(OPT_FOREGROUND, "")]) /\
  asked is_background
    (boot_trace (exec standin_system (main [(OPT_FOREGROUND, "")] 2 2 2)
                      (healthy [])))
  = false.
Proof.
  assert (H : In OPT_FOREGROUND (codes [(OPT_FOREGROUND, "")]))
    by (cbn; left; reflexivity).
  split; [exact H|].
  exact (foreground_stays_attached standin_system [(OPT_FOREGROUND, "")]
           2 2 2 (healthy []) H).
Defined.

(** wickedd: detached before the first wait. *)
Lemma background_before_wait_witness :
  let b := exec standin_system (main [] 1 1 1) (healthy []) in
  ~ In OPT_FOREGROUND (codes []) /\
  wait_results (boot_trace b) <> [] /\
  exists before rv after,
    boot_trace b
    = (before ++
       [Sys ni_server_background rv;
        Sys (ni_log_destination_syslog "wickedd") tt] ++ after)%list /\
    0 <= rv /\ wait_results before = [].
Proof.
  cbv zeta.
  assert (H : ~ In OPT_FOREGROUND (codes [])) by (cbn; tauto).
  assert (Hw : wait_results
                 (boot_trace
                    (exec standin_system (main [] 1 1 1) (healthy [])))
               <> []) by (vm_compute; discriminate).
  split; [exact H|]. split; [exact Hw|].
  exact (proj1 (background_before_wait standin_system [] 1 1 1 (healthy [])
                  H) Hw).
Defined.

(** The second wait fails. *)
Lemma wait_failure_is_fatal_witness :
  let b := exec standin_system (main [] 1 1 3) (healthy [0; -1]) in
  In (-1) (wait_results (boot_trace b)) /\ -1 < 0 /\
  boot_finish b = Ended Fatal /\
  exists before,
    boot_trace b
    = (before ++ [Sys (ni_socket_wait (-1)) (-1);
                  Sys (ni_fatal "ni_socket_wait failed") tt])%list /\
    Forall (fun rv' => 0 <= rv') (wait_results before).
Proof.
  cbv zeta.
  assert (H : In (-1) (wait_results
                         (boot_trace
                            (exec standin_system (main [] 1 1 3)
                               (healthy [0; -1])))))
    by (vm_compute; right; left; reflexivity).
  assert (H0 : -1 < 0) by lia.
  split; [exact H|]. split; [exact H0|].
  exact (wait_failure_is_fatal standin_system [] 1 1 3 (healthy [0; -1])
           (-1) H H0).
Defined.

(** [ni_server_listen] gives [NULL]. *)
Lemma null_socket_not_caught_witness :
  let l := {| init_answer := 0; listen_answer := NULL; events_answer := 0;
              background_answer := 0; wait_answers := [] |} in
  let b := exec standin_system (main [] 1 1 2) l in
  In NULL (sockets (boot_trace b)) /\
  boot_finish b = Ended Fault /\
  fatal_messages (boot_trace b) = [] /\
  wait_results (boot_trace b) = [] /\
  exists before,
    boot_trace b = (before ++ [Sys ni_server_listen NULL])%list.
Proof.
  cbv zeta.
  assert (H : In NULL
                (sockets
                   (boot_trace
                      (exec standin_system (main [] 1 1 2)
                         {| init_answer := 0; listen_answer := NULL;
                            events_answer := 0; background_answer := 0;
                            wait_answers := [] |}))))
    by (vm_compute; left; reflexivity).
  split; [exact H|].
  exact (null_socket_not_caught standin_system [] 1 1 2 _ H).
Defined.

(** wickedd --debug all --no-fork, three iterations. *)
Lemma daemon_starts_witness :
  let parsed := [(OPT_DEBUG, "all"); (OPT_NOFORK, "")] in
  never_fails steady_system /\ Forall plain_option parsed /\
  let b := exec steady_system (main parsed 4 4 3) tt in
  (exists g, boot_finish b = Ended (Serving g)) /\
  length (wait_results (boot_trace b)) = 3%nat /\
  stderr_lines (boot_trace b) = [] /\
  fatal_messages (boot_trace b) = [].
Proof.
  cbv zeta.
  assert (H : Forall plain_option [(OPT_DEBUG, "all"); (OPT_NOFORK, "")]).
  { constructor; [right; left; split; [reflexivity|discriminate]|].
    constructor; [right; right; right; reflexivity|constructor]. }
  split; [exact steady_never_fails|]. split; [exact H|].
  exact (daemon_starts steady_system [(OPT_DEBUG, "all"); (OPT_NOFORK, "")]
           4 3 tt steady_never_fails H).
Defined.

(** wickedd --no-fork, then a connection from root. *)
Lemma no_fork_option_decides_witness :
  let parsed := [(OPT_NOFORK, "")] in
  let g := {| opt_foreground := 0; opt_nofork := 1 |} in
  boot_finish (exec standin_system (main parsed 2 2 1) (healthy []))
  = Ended (Serving g) /\
  In OPT_NOFORK (codes parsed) /\
  let e := run Standin.lib (wicked_accept_connection (opt_nofork g) 7 0 0)
               (Standin.start []) in
  forks (proc_trace (parent e)) = [] /\ children e = [] /\
  length (responses (proc_trace (parent e))) = 1%nat.
Proof.
  cbv zeta.
  assert (H : In OPT_NOFORK (codes [(OPT_NOFORK, "")]))
    by (cbn; left; reflexivity).
  split; [reflexivity|]. split; [exact H|].
  exact (proj1 (no_fork_option_decides Standin.lib standin_system
                  [(OPT_NOFORK, "")] 2 2 1 (healthy [])
                  {| opt_foreground := 0; opt_nofork := 1 |} 7 0
                  (Standin.start []) eq_refl) H).
Defined.
